(** * st2110-monitoring: streaming telemetry collectors

    A shallow embedding of the gNMI collector (exporters/gnmi/main.go), the
    Arista EOS collector (exporters/vendor/arista/eos_collector.go) and the
    Evertz EQX exporter (exporters/vendor/evertz/eqx_exporter.go), with the
    properties the design document states about them.

    Go values are modelled as the code has them: [uint64] and [int] as [Z],
    [float64] as IEEE binary64 ([PrimFloat.float]), [string] as [string],
    [[]byte] as [list byte], [map[string]T] as [gmap string T], slices as
    lists, pointers that the wire decoder may leave nil as [option].  A
    run-time panic is an explicit result ([Panic]); the Prometheus metric
    vectors, which the handlers mutate in place, are threaded through as
    state.

    Left out: the lines written with [log] and the HTTP servers of the
    exporters.  Registration with the default registry is modelled apart, in
    the start-up of the gNMI exporter.  The elements of a repeated message
    field ([path.Elem], [notification.Update]) are taken to be non-nil, as
    the wire decoder leaves them. *)

From Stdlib Require Import ZArith String Ascii List Lia.
From Stdlib.Strings Require Import Byte.
From Stdlib Require Import PrimFloat FloatOps SpecFloat.
From stdpp Require Import gmap strings list.

Local Open Scope string_scope.
Local Open Scope Z_scope.

(** ** Go run time: panics *)

Inductive panic : Type :=
  | IndexOutOfRange (index len : nat)
  | NilDereference
  | TypeAssertion
  | LabelCardinality (declared given : nat)
  | NegativeCounterAdd.

Inductive Go (A : Type) : Type :=
  | Ok (a : A)
  | Panic (p : panic).
Arguments Ok {A} a.
Arguments Panic {A} p.

#[global] Instance Go_ret : MRet Go := fun _ a => Ok a.
#[global] Instance Go_bind : MBind Go := fun _ _ f m =>
  match m with
  | Ok a => f a
  | Panic p => Panic p
  end.

(** [for _, x := range xs { body }] over a state [s]; a panic in the body
    ends the loop. *)
Fixpoint forRange {S X : Type} (body : S -> X -> Go S) (s : S) (xs : list X)
  : Go S :=
  match xs with
  | [] => Ok s
  | x :: xs' => s' ← body s x; forRange body s' xs'
  end.

(** [xs[i]] with Go's bounds check. *)
Definition index {X : Type} (xs : list X) (i : nat) : Go X :=
  match xs !! i with
  | Some x => Ok x
  | None => Panic (IndexOutOfRange i (length xs))
  end.

(** [m[k]] on a [map[string]string]: the zero value when the key is absent. *)
Definition mapGet (m : gmap string string) (k : string) : string :=
  default "" (m !! k).

(** [true] unless the result is an index-out-of-range panic. *)
Definition indexSafe {A : Type} (r : Go A) : bool :=
  match r with
  | Panic (IndexOutOfRange _ _) => false
  | _ => true
  end.

(** ** Numeric conversions *)

Definition uint64_max : Z := 2 ^ 64 - 1.

(** [float64(n)] for an integer [n]: the nearest binary64, ties to even. *)
Definition float64_of_int (n : Z) : float :=
  SF2Prim (binary_normalize prec emax n 0 false).

(** The integer part of a finite float (truncation toward zero). *)
Definition truncate (f : float) : option Z :=
  match Prim2SF f with
  | S754_zero _ => Some 0
  | S754_finite s m e =>
      let mag := if 0 <=? e then Z.shiftl (Z.pos m) e
                 else Z.shiftr (Z.pos m) (- e) in
      Some (if s then - mag else mag)
  | S754_infinity _ | S754_nan => None
  end.

(** ** Prometheus client: metric vectors

    A vector has a name, its declared label names, and one child per list of
    label values.  [WithLabelValues] panics when the number of values is not
    the number of declared names. *)

Record GaugeVec : Type := mkGaugeVec {
  gv_name : string;
  gv_labelNames : list string;
  gv_values : gmap (list string) float
}.

Definition NewGaugeVec (name : string) (labelNames : list string) : GaugeVec :=
  mkGaugeVec name labelNames ∅.

(** [g.WithLabelValues(lvs...).Set(v)] *)
Definition WithLabelValues_Set (g : GaugeVec) (lvs : list string) (v : float)
  : Go GaugeVec :=
  if (length lvs =? length (gv_labelNames g))%nat
  then Ok (mkGaugeVec (gv_name g) (gv_labelNames g) (<[lvs := v]> (gv_values g)))
  else Panic (LabelCardinality (length (gv_labelNames g)) (length lvs)).

Record CounterVec : Type := mkCounterVec {
  cv_name : string;
  cv_labelNames : list string;
  cv_values : gmap (list string) float
}.

Definition NewCounterVec (name : string) (labelNames : list string) : CounterVec :=
  mkCounterVec name labelNames ∅.

(** The value a counter child reports; a child that was never touched is 0. *)
Definition counterValue (g : CounterVec) (lvs : list string) : float :=
  default 0%float (cv_values g !! lvs).

(** [g.WithLabelValues(lvs...).Add(v)]: the child goes up by [v]; [Add]
    panics on a negative value. *)
Definition WithLabelValues_Add (g : CounterVec) (lvs : list string) (v : float)
  : Go CounterVec :=
  if (length lvs =? length (cv_labelNames g))%nat
  then
    if PrimFloat.ltb v 0%float then Panic NegativeCounterAdd
    else Ok (mkCounterVec (cv_name g) (cv_labelNames g)
               (<[lvs := PrimFloat.add (counterValue g lvs) v]> (cv_values g)))
  else Panic (LabelCardinality (length (cv_labelNames g)) (length lvs)).

(** The label set of a child: declared names paired with the given values. *)
Definition labelSet (labelNames lvs : list string) : list (string * string) :=
  zip labelNames lvs.

(** ** gNMI messages *)

Record PathElem : Type := mkPathElem {
  Name : string;
  Key : gmap string string
}.

Record Path : Type := mkPath {
  Origin : string;
  Elem : list PathElem
}.

Inductive TypedValue : Type :=
  | StringVal (s : string)
  | IntVal (n : Z)
  | UintVal (n : Z)
  | BoolVal (b : bool)
  | BytesVal (b : list Byte.byte)
  | DoubleVal (f : float)
  | JsonVal (b : list Byte.byte)
  | JsonIetfVal (b : list Byte.byte)
  | AsciiVal (s : string).

(** [Update.Path] and [Update.Val] are pointers; an unset field is nil. *)
Record Update : Type := mkUpdate {
  upd_Path : option Path;
  upd_Val : option TypedValue
}.

Record Notification : Type := mkNotification {
  ntf_Timestamp : Z;
  ntf_Update : list Update
}.

(** The [Response] oneof of a [SubscribeResponse]. *)
Inductive SubscribeResponse : Type :=
  | SubscribeResponse_Update (notification : Notification)
  | SubscribeResponse_SyncResponse (sync : bool)
  | SubscribeResponse_unset.

(** The generated getters are nil-safe and return the zero value when the
    oneof holds another type. *)
Definition GetJsonIetfVal (v : option TypedValue) : option (list Byte.byte) :=
  match v with
  | Some (JsonIetfVal b) => Some b
  | _ => None
  end.

Definition GetUintVal (v : option TypedValue) : Z :=
  match v with
  | Some (UintVal n) => n
  | _ => 0
  end.

(** [path.Elem] on a pointer that may be nil. *)
Definition deref {A : Type} (p : option A) : Go A :=
  match p with
  | Some a => Ok a
  | None => Panic NilDereference
  end.

(** ** Decoded JSON ([interface{}] values of encoding/json) *)

#[local] Unset Elimination Schemes.
Inductive JSON : Type :=
  | JNull
  | JBool (b : bool)
  | JNumber (f : float)
  | JString (s : string)
  | JArray (items : list JSON)
  | JObject (fields : list (string * JSON)).
#[local] Set Elimination Schemes.

(** [v, ok := data[k].(float64)] *)
Definition asFloat64 (data : gmap string JSON) (k : string) : option float :=
  match data !! k with
  | Some (JNumber f) => Some f
  | _ => None
  end.

(** ** Errors and the transport

    Go's [error] interface is [option error], [None] being nil.  Errors made
    by the transport are gRPC status errors or [io.EOF];
    [fmt.Errorf(prefix + "%w", err)] wraps one. *)

Inductive Code : Type :=
  | Canceled | Unknown | DeadlineExceeded | Unauthenticated | Unavailable.

Inductive error : Type :=
  | io_EOF
  | status_Error (code : Code) (desc : string)
  | fmt_Errorf (prefix : string) (wrapped : error).

(** [errors.Is(err, <status Canceled>)]: the chain holds a cancellation. *)
Fixpoint isCanceled (err : error) : bool :=
  match err with
  | io_EOF => false
  | status_Error Canceled _ => true
  | status_Error _ _ => false
  | fmt_Errorf _ wrapped => isCanceled wrapped
  end.

(** What one call of [stream.Recv()] gives. *)
Inductive RecvResult : Type :=
  | Received (response : SubscribeResponse)
  | RecvError (err : error).

(** One connection to a target, as the collector sees it: the outcome of
    [grpc.Dial], of [client.Subscribe(ctx)], of [stream.Send], and what the
    successive calls of [stream.Recv()] return.  A cancelled context shows
    as a [Canceled] status from [Recv]. *)
Record Session : Type := mkSession {
  dialResult : option error;
  subscribeResult : option error;
  sendResult : option error;
  recv : nat -> RecvResult
}.

(** The sessions a target would offer to successive connection attempts. *)
Definition Network : Type := nat -> Session.

(** ** Path templates

    The paths a collector puts in its subscribe request are its declared
    templates; a key value ["*"] stands for any value. *)

Definition elem (name : string) : PathElem := mkPathElem name ∅.

Definition keyed (name key value : string) : PathElem :=
  mkPathElem name {[ key := value ]}.

(** The design's notion of matching, by element names and key names: every
    element of the template, in order, has the name of the update's element
    at that place, and each key of the template is a key of that element,
    with the same value unless the template says ["*"].  The update may go
    deeper than the template. *)
Definition elemMatches (t u : PathElem) : bool :=
  (Name t =? Name u)%string &&
  forallb (fun kv : string * string =>
             match Key u !! kv.1 with
             | Some v => (kv.2 =? "*")%string || (kv.2 =? v)%string
             | None => false
             end) (map_to_list (Key t)).

Fixpoint elemsMatch (ts us : list PathElem) : bool :=
  match ts, us with
  | [], _ => true
  | _ :: _, [] => false
  | t :: ts', u :: us' => elemMatches t u && elemsMatch ts' us'
  end.

Definition pathMatchesTemplate (t p : Path) : bool :=
  (Origin t =? Origin p)%string && elemsMatch (Elem t) (Elem p).

Definition matchesSomeTemplate (templates : list Path) (p : Path) : bool :=
  existsb (fun t => pathMatchesTemplate t p) templates.

(** ** The generic gNMI collector (exporters/gnmi/main.go) *)

Record GNMICollector : Type := mkGNMICollector {
  target : string;
  username : string;
  password : string;
  interfaceRxBytes : GaugeVec;
  interfaceTxBytes : GaugeVec;
  interfaceRxErrors : GaugeVec;
  interfaceTxErrors : GaugeVec;
  interfaceRxDrops : GaugeVec;
  interfaceTxDrops : GaugeVec;
  qosBufferUtil : GaugeVec;
  qosDroppedPackets : GaugeVec;
  multicastGroups : GaugeVec
}.

Definition NewGNMICollector (target username password : string) : GNMICollector :=
  {| target := target;
     username := username;
     password := password;
     interfaceRxBytes :=
       NewGaugeVec "st2110_switch_interface_rx_bytes" ["switch"; "interface"];
     interfaceTxBytes :=
       NewGaugeVec "st2110_switch_interface_tx_bytes" ["switch"; "interface"];
     interfaceRxErrors :=
       NewGaugeVec "st2110_switch_interface_rx_errors" ["switch"; "interface"];
     interfaceTxErrors :=
       NewGaugeVec "st2110_switch_interface_tx_errors" ["switch"; "interface"];
     interfaceRxDrops :=
       NewGaugeVec "st2110_switch_interface_rx_drops" ["switch"; "interface"];
     interfaceTxDrops :=
       NewGaugeVec "st2110_switch_interface_tx_drops" ["switch"; "interface"];
     qosBufferUtil :=
       NewGaugeVec "st2110_switch_qos_buffer_utilization"
         ["switch"; "interface"; "queue"];
     qosDroppedPackets :=
       NewGaugeVec "st2110_switch_qos_dropped_packets"
         ["switch"; "interface"; "queue"];
     multicastGroups :=
       NewGaugeVec "st2110_switch_multicast_groups" ["switch"; "interface"] |}.

(** The paths of the subscribe request that [Subscribe] sends. *)
Definition subscribePaths : list Path :=
  [ mkPath "" [elem "interfaces"; keyed "interface" "name" "*";
               elem "state"; elem "counters"];
    mkPath "" [elem "qos"; elem "interfaces"; keyed "interface" "name" "*";
               elem "output"; elem "queues"; keyed "queue" "name" "*";
               elem "state"] ].

(** The gauge fields of the collector, to name the vector a write goes to. *)
Inductive gaugeField : Type :=
  | F_interfaceRxBytes | F_interfaceTxBytes
  | F_interfaceRxErrors | F_interfaceTxErrors
  | F_interfaceRxDrops | F_interfaceTxDrops
  | F_qosBufferUtil | F_qosDroppedPackets
  | F_multicastGroups.

Definition getGauge (c : GNMICollector) (f : gaugeField) : GaugeVec :=
  match f with
  | F_interfaceRxBytes => interfaceRxBytes c
  | F_interfaceTxBytes => interfaceTxBytes c
  | F_interfaceRxErrors => interfaceRxErrors c
  | F_interfaceTxErrors => interfaceTxErrors c
  | F_interfaceRxDrops => interfaceRxDrops c
  | F_interfaceTxDrops => interfaceTxDrops c
  | F_qosBufferUtil => qosBufferUtil c
  | F_qosDroppedPackets => qosDroppedPackets c
  | F_multicastGroups => multicastGroups c
  end.

Definition putGauge (c : GNMICollector) (f : gaugeField) (g : GaugeVec)
  : GNMICollector :=
  let pick f' := match f, f' with
                 | F_interfaceRxBytes, F_interfaceRxBytes
                 | F_interfaceTxBytes, F_interfaceTxBytes
                 | F_interfaceRxErrors, F_interfaceRxErrors
                 | F_interfaceTxErrors, F_interfaceTxErrors
                 | F_interfaceRxDrops, F_interfaceRxDrops
                 | F_interfaceTxDrops, F_interfaceTxDrops
                 | F_qosBufferUtil, F_qosBufferUtil
                 | F_qosDroppedPackets, F_qosDroppedPackets
                 | F_multicastGroups, F_multicastGroups => g
                 | _, _ => getGauge c f'
                 end in
  {| target := target c;
     username := username c;
     password := password c;
     interfaceRxBytes := pick F_interfaceRxBytes;
     interfaceTxBytes := pick F_interfaceTxBytes;
     interfaceRxErrors := pick F_interfaceRxErrors;
     interfaceTxErrors := pick F_interfaceTxErrors;
     interfaceRxDrops := pick F_interfaceRxDrops;
     interfaceTxDrops := pick F_interfaceTxDrops;
     qosBufferUtil := pick F_qosBufferUtil;
     qosDroppedPackets := pick F_qosDroppedPackets;
     multicastGroups := pick F_multicastGroups |}.

(** [c.<field>.WithLabelValues(lvs...).Set(v)] *)
Definition gaugeSet (c : GNMICollector) (f : gaugeField) (lvs : list string)
    (v : float) : Go GNMICollector :=
  g ← WithLabelValues_Set (getGauge c f) lvs v; Ok (putGauge c f g).

Record InterfaceCounters : Type := mkInterfaceCounters {
  InOctets : Z;
  OutOctets : Z;
  InErrors : Z;
  OutErrors : Z;
  InDiscards : Z;
  OutDiscards : Z
}.

Record QoSStats : Type := mkQoSStats {
  BufferUtilization : float;
  DroppedPackets : Z
}.

(** What the collector takes from its platform.

    [json_Unmarshal] is [json.Unmarshal(jsonData, &data)] into a
    [map[string]interface{}], from the standard library: [None] is a non-nil
    error, [Some m] the decoded object (the nil map of a JSON [null] reads
    like the empty map).

    Go leaves [uint64(f)] implementation-dependent when the integer part of
    [f] is not a [uint64]; [uint64_unrepresentable f] is what the platform
    gives then. *)
Class Platform : Type := mkPlatform {
  json_Unmarshal : list Byte.byte -> option (gmap string JSON);
  uint64_unrepresentable : float -> Z
}.

Section Decoding.

Context `{Platform}.

(** [uint64(f)] *)
Definition uint64_of_float64 (f : float) : Z :=
  match truncate f with
  | Some n =>
      if (0 <=? n) && (n <=? uint64_max) then n
      else uint64_unrepresentable f mod 2 ^ 64
  | None => uint64_unrepresentable f mod 2 ^ 64
  end.

Definition parseCounters (jsonData : list Byte.byte) : InterfaceCounters :=
  let counters := mkInterfaceCounters 0 0 0 0 0 0 in
  match json_Unmarshal jsonData with
  | Some data =>
      let counters :=
        match asFloat64 data "in-octets" with
        | Some inOctets =>
            mkInterfaceCounters (uint64_of_float64 inOctets)
              (OutOctets counters) (InErrors counters) (OutErrors counters)
              (InDiscards counters) (OutDiscards counters)
        | None => counters
        end in
      match asFloat64 data "out-octets" with
      | Some outOctets =>
          mkInterfaceCounters (InOctets counters)
            (uint64_of_float64 outOctets) (InErrors counters)
            (OutErrors counters) (InDiscards counters) (OutDiscards counters)
      | None => counters
      end
  | None => counters
  end.

Definition parseQoSStats (jsonData : list Byte.byte) : QoSStats :=
  let qos := mkQoSStats 0%float 0 in
  match json_Unmarshal jsonData with
  | Some data =>
      let qos :=
        match asFloat64 data "buffer-utilization" with
        | Some util => mkQoSStats util (DroppedPackets qos)
        | None => qos
        end in
      match asFloat64 data "dropped-packets" with
      | Some drops => mkQoSStats (BufferUtilization qos) (uint64_of_float64 drops)
      | None => qos
      end
  | None => qos
  end.

(** The interface-counter branch of the loop body of [handleUpdate]. *)
Definition handleInterfaces (switchName : string) (c : GNMICollector)
    (path : Path) (value : option TypedValue) : Go GNMICollector :=
  if (4 <=? length (Elem path))%nat then
    e0 ← index (Elem path) 0;
    if (Name e0 =? "interfaces")%string then
      e1 ← index (Elem path) 1;
      let ifaceName := mapGet (Key e1) "name" in
      e2 ← index (Elem path) 2;
      if (Name e2 =? "state")%string then
        e3 ← index (Elem path) 3;
        if (Name e3 =? "counters")%string then
          match GetJsonIetfVal value with
          | Some jsonVal =>
              let counters := parseCounters jsonVal in
              c ← gaugeSet c F_interfaceRxBytes [switchName; ifaceName]
                    (float64_of_int (InOctets counters));
              c ← gaugeSet c F_interfaceTxBytes [switchName; ifaceName]
                    (float64_of_int (OutOctets counters));
              c ← gaugeSet c F_interfaceRxErrors [switchName; ifaceName]
                    (float64_of_int (InErrors counters));
              c ← gaugeSet c F_interfaceTxErrors [switchName; ifaceName]
                    (float64_of_int (OutErrors counters));
              c ← gaugeSet c F_interfaceRxDrops [switchName; ifaceName]
                    (float64_of_int (InDiscards counters));
              gaugeSet c F_interfaceTxDrops [switchName; ifaceName]
                (float64_of_int (OutDiscards counters))
          | None => Ok c
          end
        else Ok c
      else Ok c
    else Ok c
  else Ok c.

(** The QoS branch of the loop body of [handleUpdate]. *)
Definition handleQoS (switchName : string) (c : GNMICollector)
    (path : Path) (value : option TypedValue) : Go GNMICollector :=
  if (7 <=? length (Elem path))%nat then
    e0 ← index (Elem path) 0;
    if (Name e0 =? "qos")%string then
      e2 ← index (Elem path) 2;
      let ifaceName := mapGet (Key e2) "name" in
      e5 ← index (Elem path) 5;
      let queueName := mapGet (Key e5) "name" in
      match GetJsonIetfVal value with
      | Some jsonVal =>
          let qos := parseQoSStats jsonVal in
          c ← gaugeSet c F_qosBufferUtil [switchName; ifaceName; queueName]
                (BufferUtilization qos);
          gaugeSet c F_qosDroppedPackets [switchName; ifaceName; queueName]
            (float64_of_int (DroppedPackets qos))
      | None => Ok c
      end
    else Ok c
  else Ok c.

(** One iteration of [for _, update := range notification.Update]. *)
Definition handleOneUpdate (switchName : string) (c : GNMICollector)
    (update : Update) : Go GNMICollector :=
  path ← deref (upd_Path update);
  let value := upd_Val update in
  c ← handleInterfaces switchName c path value;
  handleQoS switchName c path value.

Definition handleUpdate (c : GNMICollector) (response : SubscribeResponse)
  : Go GNMICollector :=
  match response with
  | SubscribeResponse_Update notification =>
      let switchName := target c in
      forRange (handleOneUpdate switchName) c (ntf_Update notification)
  | SubscribeResponse_SyncResponse _ => Ok c
  | SubscribeResponse_unset => Ok c
  end.

(** [c.Connect()]: nil error when the dial succeeds. *)
Definition Connect (c : GNMICollector) (s : Session) : option error :=
  match dialResult s with
  | Some err =>
      Some (fmt_Errorf ("failed to connect to " ++ target c ++ ": ") err)
  | None => None
  end.

(** The receive loop of [Subscribe], [i] calls of [Recv] having been made;
    [None] when the loop is still running after [fuel] more calls. *)
Fixpoint receiveLoop (fuel : nat) (c : GNMICollector)
    (recv : nat -> RecvResult) (i : nat)
  : option (Go (GNMICollector * option error)) :=
  match fuel with
  | O => None
  | S fuel' =>
      match recv i with
      | RecvError err => Some (Ok (c, Some (fmt_Errorf "stream error: " err)))
      | Received response =>
          match handleUpdate c response with
          | Ok c' => receiveLoop fuel' c' recv (S i)
          | Panic p => Some (Panic p)
          end
      end
  end.

(** [c.Subscribe(ctx)]: the collector as the call leaves it and the error
    returned. *)
Definition Subscribe (fuel : nat) (c : GNMICollector) (s : Session)
  : option (Go (GNMICollector * option error)) :=
  match Connect c s with
  | Some err => Some (Ok (c, Some err))
  | None =>
      match subscribeResult s with
      | Some err => Some (Ok (c, Some (fmt_Errorf "failed to subscribe: " err)))
      | None =>
          match sendResult s with
          | Some err =>
              Some (Ok (c, Some (fmt_Errorf "failed to send subscription: " err)))
          | None => receiveLoop fuel c (recv s) 0
          end
      end
  end.

(** The goroutine [main] starts for one switch:
    [if err := c.Subscribe(ctx); err != nil { log.Printf(...) }].
    [sessionsUsed] counts the connections opened, [reported] is the error
    passed to [log.Printf]. *)
Record GoroutineEnd : Type := mkGoroutineEnd {
  finalCollector : GNMICollector;
  sessionsUsed : nat;
  reported : option (string * error)
}.

Definition collectorGoroutine (fuel : nat) (c : GNMICollector)
    (name : string) (net : Network) : option (Go GoroutineEnd) :=
  match Subscribe fuel c (net 0%nat) with
  | None => None
  | Some (Panic p) => Some (Panic p)
  | Some (Ok (c', Some err)) => Some (Ok (mkGoroutineEnd c' 1 (Some (name, err))))
  | Some (Ok (c', None)) => Some (Ok (mkGoroutineEnd c' 1 None))
  end.

(** The points one update makes the handler write, in the order of the
    writes: which vector, which label values, which value. *)
Record MetricPoint : Type := mkMetricPoint {
  pt_field : gaugeField;
  pt_labels : list string;
  pt_value : float
}.

Definition writePoint (c : GNMICollector) (p : MetricPoint) : Go GNMICollector :=
  gaugeSet c (pt_field p) (pt_labels p) (pt_value p).

Definition writePoints (c : GNMICollector) (pts : list MetricPoint)
  : Go GNMICollector :=
  forRange writePoint c pts.

(** The six writes of the interface-counter branch. *)
Definition countersPoints (switchName ifaceName : string)
    (counters : InterfaceCounters) : list MetricPoint :=
  let lvs := [switchName; ifaceName] in
  [ mkMetricPoint F_interfaceRxBytes lvs (float64_of_int (InOctets counters));
    mkMetricPoint F_interfaceTxBytes lvs (float64_of_int (OutOctets counters));
    mkMetricPoint F_interfaceRxErrors lvs (float64_of_int (InErrors counters));
    mkMetricPoint F_interfaceTxErrors lvs (float64_of_int (OutErrors counters));
    mkMetricPoint F_interfaceRxDrops lvs (float64_of_int (InDiscards counters));
    mkMetricPoint F_interfaceTxDrops lvs (float64_of_int (OutDiscards counters)) ].

Definition interfacesPoints (switchName : string) (path : Path)
    (value : option TypedValue) : list MetricPoint :=
  match Elem path with
  | e0 :: e1 :: e2 :: e3 :: _ =>
      if (Name e0 =? "interfaces")%string && (Name e2 =? "state")%string
         && (Name e3 =? "counters")%string
      then
        match GetJsonIetfVal value with
        | Some jsonVal =>
            countersPoints switchName (mapGet (Key e1) "name")
              (parseCounters jsonVal)
        | None => []
        end
      else []
  | _ => []
  end.

Definition qosPoints (switchName : string) (path : Path)
    (value : option TypedValue) : list MetricPoint :=
  match Elem path with
  | e0 :: _ :: e2 :: _ :: _ :: e5 :: _ :: _ =>
      if (Name e0 =? "qos")%string then
        match GetJsonIetfVal value with
        | Some jsonVal =>
            let qos := parseQoSStats jsonVal in
            let lvs := [switchName; mapGet (Key e2) "name"; mapGet (Key e5) "name"] in
            [ mkMetricPoint F_qosBufferUtil lvs (BufferUtilization qos);
              mkMetricPoint F_qosDroppedPackets lvs
                (float64_of_int (DroppedPackets qos)) ]
        | None => []
        end
      else []
  | _ => []
  end.

Definition updatePoints (switchName : string) (update : Update)
  : Go (list MetricPoint) :=
  path ← deref (upd_Path update);
  Ok (interfacesPoints switchName path (upd_Val update)
      ++ qosPoints switchName path (upd_Val update))%list.

(** The points of a whole response, update after update. *)
Definition responsePoints (switchName : string) (response : SubscribeResponse)
  : Go (list MetricPoint) :=
  match response with
  | SubscribeResponse_Update notification =>
      forRange (fun acc update =>
                  pts ← updatePoints switchName update; Ok (acc ++ pts)%list)
        [] (ntf_Update notification)
  | _ => Ok []
  end.

End Decoding.

(** ** The Arista EOS collector (exporters/vendor/arista/eos_collector.go) *)

Module Arista.

Record AristaEOSCollector : Type := mkAristaEOSCollector {
  target : string;
  hwQueueDrops : CounterVec;
  ptpLockStatus : GaugeVec;
  igmpGroups : GaugeVec;
  tcamUtilization : GaugeVec
}.

Definition NewAristaEOSCollector (target username password : string)
  : AristaEOSCollector :=
  {| target := target;
     hwQueueDrops :=
       NewCounterVec "arista_hw_queue_drops_total"
         ["switch"; "interface"; "queue"];
     ptpLockStatus := NewGaugeVec "arista_ptp_lock_status" ["switch"; "domain"];
     igmpGroups := NewGaugeVec "arista_igmp_snooping_groups" ["switch"; "vlan"];
     tcamUtilization :=
       NewGaugeVec "arista_tcam_utilization_percent" ["switch"; "table"] |}.

(** The paths of the subscribe request that [SubscribeArista] sends. *)
Definition subscribePaths : list Path :=
  [ mkPath "arista"
      [elem "eos"; elem "arista-exp-eos-qos"; elem "qos"; elem "interfaces";
       keyed "interface" "name" "*"; elem "queues";
       keyed "queue" "queue-id" "*"; elem "state"; elem "dropped-pkts"];
    mkPath "arista"
      [elem "eos"; elem "arista-exp-eos-ptp"; elem "ptp"; elem "instances";
       keyed "instance" "instance-id" "default"; elem "state"];
    mkPath "arista"
      [elem "eos"; elem "arista-exp-eos-igmpsnooping"; elem "igmp-snooping";
       elem "vlans"; keyed "vlan" "vlan-id" "*"; elem "state"] ].

(** The arguments of the warning that the handler prints on standard
    output when an update reports drops. *)
Record DropWarning : Type := mkDropWarning {
  w_target : string;
  w_interface : string;
  w_queue : string;
  w_drops : Z
}.

(** The collector together with what has been printed so far. *)
Definition State : Type := AristaEOSCollector * list DropWarning.

Definition putHwQueueDrops (c : AristaEOSCollector) (g : CounterVec)
  : AristaEOSCollector :=
  {| target := target c;
     hwQueueDrops := g;
     ptpLockStatus := ptpLockStatus c;
     igmpGroups := igmpGroups c;
     tcamUtilization := tcamUtilization c |}.

(** One iteration of [for _, update := range notification.Update]. *)
Definition handleOneUpdate (st : State) (update : Update) : Go State :=
  let (c, out) := st in
  path ← deref (upd_Path update);
  let value := upd_Val update in
  if (Origin path =? "arista")%string && (7 <? length (Elem path))%nat then
    e7 ← index (Elem path) 7;
    if (Name e7 =? "dropped-pkts")%string then
      e4 ← index (Elem path) 4;
      let ifaceName := mapGet (Key e4) "name" in
      e6 ← index (Elem path) 6;
      let queueID := mapGet (Key e6) "queue-id" in
      let drops := GetUintVal value in
      g ← WithLabelValues_Add (hwQueueDrops c) [target c; ifaceName; queueID]
            (float64_of_int drops);
      let c := putHwQueueDrops c g in
      if 0 <? drops
      then Ok (c, (out ++ [mkDropWarning (target c) ifaceName queueID drops])%list)
      else Ok (c, out)
    else Ok (c, out)
  else Ok (c, out).

Definition handleAristaUpdate (st : State) (response : SubscribeResponse)
  : Go State :=
  match response with
  | SubscribeResponse_Update notification =>
      forRange handleOneUpdate st (ntf_Update notification)
  | _ => Ok st
  end.

(** The condition under which the handler takes an update for a
    hardware-queue drop count. *)
Definition recognized (path : Path) : bool :=
  (Origin path =? "arista")%string && (7 <? length (Elem path))%nat &&
  match Elem path !! 7%nat with
  | Some e7 => (Name e7 =? "dropped-pkts")%string
  | None => false
  end.

(** The label values it takes from a path: keys of the elements at the
    places 4 and 6. *)
Definition labelsOf (c : AristaEOSCollector) (path : Path) : list string :=
  [target c;
   mapGet (Key (default (elem "") (Elem path !! 4%nat))) "name";
   mapGet (Key (default (elem "") (Elem path !! 6%nat))) "queue-id"].

(** A path on which the handler takes a drop count for queue [queue] of
    interface [iface], and an update reporting [n] drops on it. *)
Definition dropsPath (iface queue : string) : Path :=
  mkPath "arista"
    [elem "eos"; elem "arista-exp-eos-qos"; elem "qos"; elem "interfaces";
     keyed "interface" "name" iface; elem "queues";
     keyed "queue" "queue-id" queue; elem "dropped-pkts"].

Definition dropsUpdate (iface queue : string) (n : Z) : Update :=
  mkUpdate (Some (dropsPath iface queue)) (Some (UintVal n)).

(** What the handler prints for an update on [path] with value [value]. *)
Definition warningsOf (c : AristaEOSCollector) (path : Path)
    (value : option TypedValue) : list DropWarning :=
  if 0 <? GetUintVal value
  then [mkDropWarning (target c)
          (mapGet (Key (default (elem "") (Elem path !! 4%nat))) "name")
          (mapGet (Key (default (elem "") (Elem path !! 6%nat))) "queue-id")
          (GetUintVal value)]
  else [].


(** The receive loop of [SubscribeArista], [i] calls of [Recv] having been
    made; [None] when the loop is still running after [fuel] more calls. *)
Fixpoint receiveLoop (fuel : nat) (st : State) (recv : nat -> RecvResult)
    (i : nat) : option (Go (State * option error)) :=
  match fuel with
  | O => None
  | S fuel' =>
      match recv i with
      | RecvError err => Some (Ok (st, Some (fmt_Errorf "stream error: " err)))
      | Received response =>
          match handleAristaUpdate st response with
          | Ok st' => receiveLoop fuel' st' recv (S i)
          | Panic p => Some (Panic p)
          end
      end
  end.

(** [c.SubscribeArista(ctx, client)]: the client is handed in, so the
    session's dial has been made by the caller. *)
Definition SubscribeArista (fuel : nat) (st : State) (s : Session)
  : option (Go (State * option error)) :=
  match subscribeResult s with
  | Some err => Some (Ok (st, Some (fmt_Errorf "failed to subscribe: " err)))
  | None =>
      match sendResult s with
      | Some err =>
          Some (Ok (st, Some (fmt_Errorf "failed to send subscription: " err)))
      | None => receiveLoop fuel st (recv s) 0
      end
  end.

End Arista.

(** ** The Evertz EQX exporter (exporters/vendor/evertz/eqx_exporter.go) *)

Module Evertz.

Record EvertzEQXExporter : Type := mkEvertzEQXExporter {
  target : string;
  community : string;
  moduleStatus : GaugeVec;
  ipFlowStatus : GaugeVec;
  videoStreamStatus : GaugeVec;
  ptpStatus : GaugeVec;
  redundancyStatus : GaugeVec
}.

Definition NewEvertzEQXExporter (target snmpCommunity : string)
  : EvertzEQXExporter :=
  {| target := target;
     community := snmpCommunity;
     moduleStatus :=
       NewGaugeVec "evertz_eqx_module_status" ["chassis"; "slot"; "module_type"];
     ipFlowStatus :=
       NewGaugeVec "evertz_eqx_ip_flow_status" ["chassis"; "flow_id"; "direction"];
     videoStreamStatus :=
       NewGaugeVec "evertz_eqx_video_stream_status" ["chassis"; "stream_id"];
     ptpStatus := NewGaugeVec "evertz_eqx_ptp_lock_status" ["chassis"; "module"];
     redundancyStatus :=
       NewGaugeVec "evertz_eqx_redundancy_status" ["chassis"; "pair"] |}.

Definition putModuleStatus (e : EvertzEQXExporter) (g : GaugeVec)
  : EvertzEQXExporter :=
  {| target := target e;
     community := community e;
     moduleStatus := g;
     ipFlowStatus := ipFlowStatus e;
     videoStreamStatus := videoStreamStatus e;
     ptpStatus := ptpStatus e;
     redundancyStatus := redundancyStatus e |}.

(** The dynamic type of [pdu.Value]. *)
Inductive SnmpValue : Type :=
  | SnmpInt (n : Z)
  | SnmpUint (n : Z)
  | SnmpString (s : string)
  | SnmpBytes (b : list Byte.byte)
  | SnmpNil.

Record SnmpPDU : Type := mkSnmpPDU {
  pdu_Name : string;
  pdu_Value : SnmpValue
}.

(** What [snmp.Walk] does with its callback: the PDUs it delivers, in
    order, and the error it ends with (nil after a complete walk). *)
Record Walk : Type := mkWalk {
  delivered : list SnmpPDU;
  walkError : option error
}.

Definition splitOID (oid : string) : list string := [].

(** The body of [parseEvertzOID] once [parts] is known. *)
Definition chassisSlot (parts : list string) : Go (string * string) :=
  if (14 <=? length parts)%nat then
    chassis ← index parts 13;
    slot ← index parts 14;
    Ok (chassis, slot)
  else Ok ("1", "5").

Definition parseEvertzOID (oid : string) : Go (string * string) :=
  let parts := splitOID oid in
  chassisSlot parts.

(** The callback that [collectSNMP] gives to the walk. *)
Definition moduleStatusCallback (e : EvertzEQXExporter) (pdu : SnmpPDU)
  : Go EvertzEQXExporter :=
  cs ← parseEvertzOID (pdu_Name pdu);
  let (chassis, slot) := cs : string * string in
  status ← match pdu_Value pdu with
           | SnmpInt n => Ok n
           | _ => Panic TypeAssertion
           end;
  g ← WithLabelValues_Set (moduleStatus e) [chassis; slot; "unknown"]
        (float64_of_int status);
  Ok (putModuleStatus e g).

Definition collectSNMP (e : EvertzEQXExporter) (walk : Walk)
  : Go (EvertzEQXExporter * option error) :=
  e' ← forRange moduleStatusCallback e (delivered walk);
  Ok (e', walkError walk).


Record IPFlow : Type := mkIPFlow {
  ID : string;
  Direction : string;
  Active : bool
}.

Record EvertzStatus : Type := mkEvertzStatus {
  Chassis : string;
  IPFlows : list IPFlow
}.

Definition boolToFloat (b : bool) : float :=
  if b then 1%float else 0%float.

(** What the request of [collectHTTPAPI] meets: an error of
    [httpClient.Get], an error of the XML decoder, or the decoded status. *)
Inductive HttpOutcome : Type :=
  | GetError (err : error)
  | DecodeError (err : error)
  | Decoded (status : EvertzStatus).

Definition putIpFlowStatus (e : EvertzEQXExporter) (g : GaugeVec)
  : EvertzEQXExporter :=
  {| target := target e;
     community := community e;
     moduleStatus := moduleStatus e;
     ipFlowStatus := g;
     videoStreamStatus := videoStreamStatus e;
     ptpStatus := ptpStatus e;
     redundancyStatus := redundancyStatus e |}.

(** One iteration of [for _, flow := range status.IPFlows]. *)
Definition recordFlow (chassis : string) (e : EvertzEQXExporter) (flow : IPFlow)
  : Go EvertzEQXExporter :=
  g ← WithLabelValues_Set (ipFlowStatus e) [chassis; ID flow; Direction flow]
        (boolToFloat (Active flow));
  Ok (putIpFlowStatus e g).

Definition collectHTTPAPI (e : EvertzEQXExporter) (http : HttpOutcome)
  : Go (EvertzEQXExporter * option error) :=
  match http with
  | GetError err => Ok (e, Some err)
  | DecodeError err => Ok (e, Some err)
  | Decoded status =>
      e' ← forRange (recordFlow (Chassis status)) e (IPFlows status);
      Ok (e', None)
  end.

(** The device as one call of [Collect] meets it. *)
Record Device : Type := mkDevice {
  snmpConnect : option error;
  snmpWalk : Walk;
  httpStatus : HttpOutcome
}.

Definition Collect (e : EvertzEQXExporter) (dev : Device)
  : Go (EvertzEQXExporter * option error) :=
  match snmpConnect dev with
  | Some err => Ok (e, Some err)
  | None =>
      r ← collectSNMP e (snmpWalk dev);
      match r.2 with
      | Some err => Ok (r.1, Some err)
      | None =>
          r' ← collectHTTPAPI r.1 (httpStatus dev);
          match r'.2 with
          | Some err => Ok (r'.1, Some err)
          | None => Ok (r'.1, None)
          end
      end
  end.

End Evertz.

(** ** Start-up of the gNMI exporter ([main] of exporters/gnmi/main.go)

    [prometheus.MustRegister] puts a vector in the default registry and
    panics when a vector of the same fully-qualified name is there already.
    The vectors here have no constant labels, so the registry is the set of
    the names registered. *)

Inductive Startup (A : Type) : Type :=
  | Up (a : A)
  | AlreadyRegistered (name : string).
Arguments Up {A} a.
Arguments AlreadyRegistered {A} name.

#[global] Instance Startup_bind : MBind Startup := fun _ _ f m =>
  match m with
  | Up a => f a
  | AlreadyRegistered name => AlreadyRegistered name
  end.

Definition MustRegister (registry : gset string) (g : GaugeVec)
  : Startup (gset string) :=
  if decide (gv_name g ∈ registry) then AlreadyRegistered (gv_name g)
  else Up ({[ gv_name g ]} ∪ registry).

(** The vectors of a collector in the order [NewGNMICollector] registers
    them. *)
Definition registeredVectors (c : GNMICollector) : list GaugeVec :=
  [interfaceRxBytes c; interfaceTxBytes c; interfaceRxErrors c;
   interfaceTxErrors c; interfaceRxDrops c; interfaceTxDrops c;
   qosBufferUtil c; qosDroppedPackets c; multicastGroups c].

Fixpoint registerAll (registry : gset string) (gs : list GaugeVec)
  : Startup (gset string) :=
  match gs with
  | [] => Up registry
  | g :: gs' => registry' ← MustRegister registry g; registerAll registry' gs'
  end.

(** [NewGNMICollector] with its registrations, on the registry it finds. *)
Definition NewGNMICollector_registering (registry : gset string)
    (target username password : string) : Startup (GNMICollector * gset string) :=
  let collector := NewGNMICollector target username password in
  registry' ← registerAll registry (registeredVectors collector);
  Up (collector, registry').

Record SwitchConfig : Type := mkSwitchConfig {
  sw_Name : string;
  sw_Target : string;
  sw_Username : string;
  sw_Password : string;
  sw_Vendor : string
}.

Definition passwordPlaceholder : string := "${GNMI_PASSWORD}".

(** The loop of [main] that expands the password from the environment;
    [getenv] is [os.Getenv("GNMI_PASSWORD")], empty when the variable is
    unset. *)
Definition expandPasswords (getenv : string) (switches : list SwitchConfig)
  : list SwitchConfig :=
  map (fun sw =>
         if (sw_Password sw =? passwordPlaceholder)%string
         then mkSwitchConfig (sw_Name sw) (sw_Target sw) (sw_Username sw)
                getenv (sw_Vendor sw)
         else sw) switches.

(** The loop of [main] that makes one collector per switch and starts its
    goroutine: the collectors made, each with the name its goroutine logs
    under, and the registry left. *)
Fixpoint startCollectors (registry : gset string) (switches : list SwitchConfig)
  : Startup (list (GNMICollector * string) * gset string) :=
  match switches with
  | [] => Up ([], registry)
  | sw :: switches' =>
      made ← NewGNMICollector_registering registry
                (sw_Target sw) (sw_Username sw) (sw_Password sw);
      rest ← startCollectors made.2 switches';
      Up ((made.1, sw_Name sw) :: rest.1, rest.2)
  end.

(** [main] from the parsed configuration on. *)
Definition startFromConfig (getenv : string) (switches : list SwitchConfig)
  : Startup (list (GNMICollector * string) * gset string) :=
  startCollectors ∅ (expandPasswords getenv switches).

(** ** A decoder for flat JSON objects

    [flatUnmarshal] reads objects of the form [{"k1":123,"k2":45}]: string
    keys without escapes, unsigned decimal integers as values, no white
    space.  Everything else is an error.  On these inputs it gives what
    [json.Unmarshal] gives; it serves as the platform of the closed examples
    below. *)

Definition quote : ascii := ascii_of_nat 34.

Definition isDigit (a : ascii) : bool :=
  (48 <=? nat_of_ascii a)%nat && (nat_of_ascii a <=? 57)%nat.

Definition digitValue (a : ascii) : Z := Z.of_nat (nat_of_ascii a) - 48.

(** The leading digits of [s] as a number, and the rest. *)
Fixpoint readDigits (acc : Z) (s : list ascii) : Z * list ascii :=
  match s with
  | a :: s' => if isDigit a then readDigits (10 * acc + digitValue a) s'
               else (acc, s)
  | [] => (acc, [])
  end.

(** The characters up to the closing quote, and the rest after it. *)
Fixpoint readString (s : list ascii) : option (string * list ascii) :=
  match s with
  | [] => None
  | a :: s' =>
      if Ascii.eqb a quote then Some (EmptyString, s')
      else if Ascii.eqb a "\" then None
      else match readString s' with
           | Some (k, rest) => Some (String a k, rest)
           | None => None
           end
  end.

(** The members of an object, after the opening brace. *)
Fixpoint readMembers (fuel : nat) (acc : gmap string JSON) (s : list ascii)
  : option (gmap string JSON) :=
  match fuel with
  | O => None
  | S fuel' =>
      match s with
      | q :: s1 =>
          if Ascii.eqb q quote then
            match readString s1 with
            | Some (k, colon :: d :: s2) =>
                if Ascii.eqb colon ":" && isDigit d then
                  let (n, s3) := readDigits 0 (d :: s2) in
                  let acc' := <[k := JNumber (float64_of_int n)]> acc in
                  match s3 with
                  | [c] => if Ascii.eqb c "}" then Some acc' else None
                  | c :: s4 =>
                      if Ascii.eqb c "," then readMembers fuel' acc' s4 else None
                  | [] => None
                  end
                else None
            | _ => None
            end
          else None
      | [] => None
      end
  end.

Definition flatUnmarshal (jsonData : list Byte.byte) : option (gmap string JSON) :=
  match map ascii_of_byte jsonData with
  | open :: s =>
      if Ascii.eqb open "{" then
        match s with
        | [c] => if Ascii.eqb c "}" then Some ∅ else None
        | _ => readMembers (length s) ∅ s
        end
      else None
  | [] => None
  end.

(** The platform of the examples: [flatUnmarshal], and for an
    unrepresentable [uint64(f)] the value amd64 gives, [1 << 63]. *)
Definition examplePlatform : Platform :=
  mkPlatform flatUnmarshal (fun _ => 2 ^ 63).

(** The bytes of the object [{"k":digits}] and of [{"k1":d1,"k2":d2}]. *)
Definition member (k digits : string) : string :=
  String quote (k ++ String quote (":" ++ digits)).

Definition object1 (k digits : string) : list Byte.byte :=
  list_byte_of_string ("{" ++ member k digits ++ "}").

Definition object2 (k1 d1 k2 d2 : string) : list Byte.byte :=
  list_byte_of_string ("{" ++ member k1 d1 ++ "," ++ member k2 d2 ++ "}").

(** ** Notions used in the statements *)

#[global] Instance gaugeField_eq_dec : EqDecision gaugeField.
Proof. solve_decision. Defined.

(** Name and label names of a vector, fixed when it is made. *)
Definition schema (g : GaugeVec) : string * list string :=
  (gv_name g, gv_labelNames g).

Definition declaredSchema (f : gaugeField) : string * list string :=
  schema (getGauge (NewGNMICollector "" "" "") f).

(** The vectors of [c] are declared as [NewGNMICollector] declares them. *)
Definition wellFormed (c : GNMICollector) : Prop :=
  forall f, schema (getGauge c f) = declaredSchema f.

(** The vector after [WithLabelValues(lvs...).Set(v)] has gone through. *)
Definition setChild (g : GaugeVec) (lvs : list string) (v : float) : GaugeVec :=
  mkGaugeVec (gv_name g) (gv_labelNames g) (<[lvs := v]> (gv_values g)).

Definition setGauge (c : GNMICollector) (f : gaugeField) (lvs : list string)
    (v : float) : GNMICollector :=
  putGauge c f (setChild (getGauge c f) lvs v).

Definition applyPoints (c : GNMICollector) (pts : list MetricPoint)
  : GNMICollector :=
  foldl (fun c p => setGauge c (pt_field p) (pt_labels p) (pt_value p)) c pts.

(** A point with as many label values as its vector declares. *)
Definition arityOK (p : MetricPoint) : Prop :=
  length (pt_labels p) = length (declaredSchema (pt_field p)).2.

(** The value stored for a metric identity, if there is one. *)
Definition stored (c : GNMICollector) (f : gaugeField) (lvs : list string)
  : option float :=
  gv_values (getGauge c f) !! lvs.

(** The positional tests under which the loop body of [handleUpdate] takes
    an update: the interface-counter branch or the QoS branch. *)
Definition handles (path : Path) : bool :=
  match Elem path with
  | e0 :: _ :: e2 :: e3 :: rest =>
      ((Name e0 =? "interfaces")%string && (Name e2 =? "state")%string
       && (Name e3 =? "counters")%string)
      || ((3 <=? length rest)%nat && (Name e0 =? "qos")%string)
  | _ => false
  end.

(** The path of an interface-counter update for the interface [iface], as
    the handler tests it. *)
Definition isCountersPath (iface : string) (path : Path) : bool :=
  match Elem path with
  | e0 :: e1 :: e2 :: e3 :: _ =>
      (Name e0 =? "interfaces")%string && (mapGet (Key e1) "name" =? iface)%string
      && (Name e2 =? "state")%string && (Name e3 =? "counters")%string
  | _ => false
  end.

Definition hasPath (update : Update) : bool :=
  match upd_Path update with
  | Some _ => true
  | None => false
  end.

(** An interface-counter update for [iface] carrying [jsonVal]. *)
Definition countersUpdate (iface : string) (jsonVal : list Byte.byte) : Update :=
  mkUpdate
    (Some (mkPath "" [elem "interfaces"; keyed "interface" "name" iface;
                      elem "state"; elem "counters"]))
    (Some (JsonIetfVal jsonVal)).

Definition notify (updates : list Update) : SubscribeResponse :=
  SubscribeResponse_Update (mkNotification 0 updates).

(** An update that carries a path on which none of the handler's tests
    succeeds. *)
Definition unhandled (update : Update) : bool :=
  match upd_Path update with
  | Some path => negb (handles path)
  | None => false
  end.

(** The module-status vector of the Evertz exporter is as declared and all
    its children have the label values "1", "5", "unknown". *)
Definition constantLabels (e : Evertz.EvertzEQXExporter) : Prop :=
  gv_labelNames (Evertz.moduleStatus e) = ["chassis"; "slot"; "module_type"] /\
  forall k v, gv_values (Evertz.moduleStatus e) !! k = Some v ->
              k = ["1"; "5"; "unknown"].

(** The call has returned, and returned a nil error. *)
Definition returnedNil {S : Type} (r : option (Go (S * option error))) : bool :=
  match r with
  | Some (Ok (_, None)) => true
  | _ => false
  end.

(** The collector is as declared, is for target [t], and every child of its
    vectors has [t] as its first label value. *)
Definition targetLabelled (t : string) (c : GNMICollector) : Prop :=
  wellFormed c /\ target c = t /\
  forall f k v, stored c f k = Some v -> exists rest, k = t :: rest.

(** The value the last point of [pts] for the vector [f] and the label
    values [k] carries, if there is such a point. *)
Fixpoint lastWrite (pts : list MetricPoint) (f : gaugeField) (k : list string)
  : option float :=
  match pts with
  | [] => None
  | p :: pts' =>
      match lastWrite pts' f k with
      | Some v => Some v
      | None =>
          if decide (pt_field p = f /\ pt_labels p = k) then Some (pt_value p)
          else None
      end
  end.

(** The path of a queue update for queue [queue] of interface [iface], as
    the handler tests it. *)
Definition isQosPath (iface queue : string) (path : Path) : bool :=
  match Elem path with
  | e0 :: _ :: e2 :: _ :: _ :: e5 :: _ :: _ =>
      (Name e0 =? "qos")%string && (mapGet (Key e2) "name" =? iface)%string
      && (mapGet (Key e5) "name" =? queue)%string
  | _ => false
  end.

(** Every update of the response carries a path. *)
Definition responseHasPaths (response : SubscribeResponse) : bool :=
  match response with
  | SubscribeResponse_Update notification => forallb hasPath (ntf_Update notification)
  | _ => true
  end.

(** [errors.Unwrap(err)] *)
Definition Unwrap (err : error) : option error :=
  match err with
  | fmt_Errorf _ wrapped => Some wrapped
  | _ => None
  end.

(** The element names of a path, and: the first names of [p] are the names
    of the declared path [t]. *)
Definition namesOf (p : Path) : list string := Name <$> Elem p.

Definition followsNames (t p : Path) : Prop :=
  take (length (Elem t)) (namesOf p) = namesOf t.

(** The first declared path of the Arista collector: hardware queue drops. *)
Definition aristaDropsTemplate : Path :=
  mkPath "arista"
    [elem "eos"; elem "arista-exp-eos-qos"; elem "qos"; elem "interfaces";
     keyed "interface" "name" "*"; elem "queues";
     keyed "queue" "queue-id" "*"; elem "state"; elem "dropped-pkts"].

(** An update that carries a path and a value that is not JSON-IETF. *)
Definition carriesNoJsonIetf (update : Update) : bool :=
  hasPath update &&
  match GetJsonIetfVal (upd_Val update) with
  | Some _ => false
  | None => true
  end.

(** The children of the drop counter are labelled by target [t], interface
    and queue, and every warning printed is for [t] and a positive count. *)
Definition aristaLabelled (t : string) (st : Arista.State) : Prop :=
  Arista.target st.1 = t /\
  cv_labelNames (Arista.hwQueueDrops st.1) = ["switch"; "interface"; "queue"] /\
  (forall k v, cv_values (Arista.hwQueueDrops st.1) !! k = Some v ->
               exists iface queue, k = [t; iface; queue]) /\
  Forall (fun w => Arista.w_target w = t /\ 0 < Arista.w_drops w) st.2.

(** Every PDU of the list carries an [int]. *)
Definition allInts (pdus : list Evertz.SnmpPDU) : bool :=
  forallb (fun pdu => match Evertz.pdu_Value pdu with
                      | Evertz.SnmpInt _ => true
                      | _ => false
                      end) pdus.

(** The module-status vector has its three declared labels. *)
Definition moduleStatusDeclared (e : Evertz.EvertzEQXExporter) : Prop :=
  gv_labelNames (Evertz.moduleStatus e) = ["chassis"; "slot"; "module_type"].

Definition ipFlowStatusDeclared (e : Evertz.EvertzEQXExporter) : Prop :=
  gv_labelNames (Evertz.ipFlowStatus e) = ["chassis"; "flow_id"; "direction"].

(** ** Example inputs *)

Definition exampleCollector : GNMICollector :=
  NewGNMICollector "sw1.example.net:6030" "admin" "secret".

(** The update of scenario A and the bytes it carries. *)
Definition scenarioA_json : list Byte.byte := object1 "in-octets" "1000000".

Definition scenarioA_response : SubscribeResponse :=
  SubscribeResponse_Update
    (mkNotification 0
       [mkUpdate
          (Some (mkPath ""
                   [elem "interfaces"; keyed "interface" "name" "eth0";
                    elem "state"; elem "counters"]))
          (Some (JsonIetfVal scenarioA_json))]).

(** [exampleCollector] after scenario A. *)
Definition gnmiAfterA : GNMICollector :=
  applyPoints exampleCollector
    (countersPoints "sw1.example.net:6030" "eth0"
       (mkInterfaceCounters 1000000 0 0 0 0 0)).

(** An update on a path that no test of the generic handler takes. *)
Definition cpuPath : Path := mkPath "" [elem "system"; elem "cpu"].

Definition cpuUpdate : Update :=
  mkUpdate (Some cpuPath) (Some (JsonIetfVal (object1 "usage" "37"))).

(** Seven elements that begin with "qos" and otherwise follow no declared
    path, carrying a drop count. *)
Definition looseQosPath : Path :=
  mkPath "" [elem "qos"; elem "a"; elem "b"; elem "c"; elem "d"; elem "e"; elem "f"].

Definition looseQosUpdate : Update :=
  mkUpdate (Some looseQosPath) (Some (JsonIetfVal (object1 "dropped-packets" "4"))).

(** A session that delivers scenario A and is then cancelled. *)
Definition cancelledSession : Session :=
  mkSession None None None
    (fun i => match i with
              | O => Received scenarioA_response
              | _ => RecvError (status_Error Canceled "context canceled")
              end).

(** A target whose first connection breaks at the first [Recv] and whose
    later connections would all stay up. *)
Definition brokenSession : Session :=
  mkSession None None None
    (fun _ => RecvError (status_Error Unavailable "transport is closing")).

Definition healthySession : Session :=
  mkSession None None None (fun _ => Received (SubscribeResponse_SyncResponse true)).

Definition flakyNetwork : Network :=
  fun attempt => match attempt with
                 | O => brokenSession
                 | _ => healthySession
                 end.

Definition aristaCollector : Arista.AristaEOSCollector :=
  Arista.NewAristaEOSCollector "sw1" "admin" "secret".

(** [aristaCollector] after one report of five drops on queue 3 of
    Ethernet1. *)
Definition aristaAfterFive : Arista.AristaEOSCollector :=
  Arista.putHwQueueDrops aristaCollector
    (mkCounterVec "arista_hw_queue_drops_total" ["switch"; "interface"; "queue"]
       {[ ["sw1"; "Ethernet1"; "3"] := 5%float ]}).


(** The first declared path of the Arista collector, with keys filled in. *)
Definition declaredDropsPath : Path :=
  mkPath "arista"
    [elem "eos"; elem "arista-exp-eos-qos"; elem "qos"; elem "interfaces";
     keyed "interface" "name" "Ethernet1"; elem "queues";
     keyed "queue" "queue-id" "3"; elem "state"; elem "dropped-pkts"].

Definition evertzExporter : Evertz.EvertzEQXExporter :=
  Evertz.NewEvertzEQXExporter "10.0.0.7" "public".

(** A walk that delivers the status of the module in chassis 2, slot 9. *)
Definition evertzWalk : Evertz.Walk :=
  Evertz.mkWalk
    [Evertz.mkSnmpPDU ".1.3.6.1.4.1.6827.20.1.1.1.1.2.2.9" (Evertz.SnmpInt 1)]
    None.

Definition evertzAfterWalk : Evertz.EvertzEQXExporter :=
  Evertz.putModuleStatus evertzExporter
    (mkGaugeVec "evertz_eqx_module_status" ["chassis"; "slot"; "module_type"]
       {[ ["1"; "5"; "unknown"] := 1%float ]}).

(** The path of scenario A, and updates on it with a scalar value, with a
    payload that is not JSON, and without a path at all. *)
Definition eth0CountersPath : Path :=
  mkPath "" [elem "interfaces"; keyed "interface" "name" "eth0";
             elem "state"; elem "counters"].

Definition scalarUpdate : Update := mkUpdate (Some eth0CountersPath) (Some (UintVal 5)).

Definition garbledUpdate : Update :=
  mkUpdate (Some eth0CountersPath) (Some (JsonIetfVal (list_byte_of_string "oops"))).

Definition pathlessUpdate : Update := mkUpdate None (Some (UintVal 5)).

(** A queue update for queue "q3" of "eth0". *)
Definition queuePath : Path :=
  mkPath "" [elem "qos"; elem "interfaces"; keyed "interface" "name" "eth0";
             elem "output"; elem "queues"; keyed "queue" "name" "q3";
             elem "state"].

Definition queueJson : list Byte.byte :=
  object2 "buffer-utilization" "42" "dropped-packets" "4".

(** A session that delivers scenario A and then an update without a path. *)
Definition pathlessSession : Session :=
  mkSession None None None
    (fun i => match i with
              | O => Received scenarioA_response
              | _ => Received (notify [pathlessUpdate])
              end).

Definition twoSwitches : list SwitchConfig :=
  [mkSwitchConfig "core-1" "10.0.0.1:6030" "admin" "${GNMI_PASSWORD}" "arista";
   mkSwitchConfig "core-2" "10.0.0.2:6030" "admin" "fixed" "cisco"].

(** A status page with two flows, and a device that answers every step. *)
Definition twoFlows : Evertz.EvertzStatus :=
  Evertz.mkEvertzStatus "EQX-1"
    [Evertz.mkIPFlow "f1" "rx" true; Evertz.mkIPFlow "f2" "tx" false].

Definition evertzDevice : Evertz.Device :=
  Evertz.mkDevice None evertzWalk (Evertz.Decoded twoFlows).

Definition evertzAfterCollect : Evertz.EvertzEQXExporter :=
  Evertz.putIpFlowStatus evertzAfterWalk
    (mkGaugeVec "evertz_eqx_ip_flow_status" ["chassis"; "flow_id"; "direction"]
       (<[ ["EQX-1"; "f2"; "tx"] := 0%float ]>
          {[ ["EQX-1"; "f1"; "rx"] := 1%float ]})).

(** A device whose walk breaks after the first PDU. *)
Definition brokenWalkDevice : Evertz.Device :=
  Evertz.mkDevice None
    (Evertz.mkWalk (Evertz.delivered evertzWalk) (Some io_EOF))
    (Evertz.Decoded twoFlows).

(** * Properties *)

(** ** Evertz: OID parsing *)

(** C9. For every OID string, [parseEvertzOID] returns chassis "1" and slot
    "5": [splitOID] gives the empty slice, the length test fails, and the
    fallback pair is returned. *)
Theorem parseEvertzOID_constant (oid : string) :
  Evertz.splitOID oid = [] /\ Evertz.parseEvertzOID oid = Ok ("1", "5").
Proof. split; reflexivity. Qed.

(** ** Bounds of path indexing *)

Lemma index_lt {X : Type} (xs : list X) (i : nat) :
  (i < length xs)%nat -> exists x, xs !! i = Some x /\ index xs i = Ok x.
Proof.
  intros Hlt. destruct (lookup_lt_is_Some_2 xs i Hlt) as [x Hx].
  exists x. split; [exact Hx |]. unfold index. now rewrite Hx.
Qed.

Lemma indexSafe_bind {A B : Type} (m : Go A) (f : A -> Go B) :
  indexSafe m = true -> (forall a, indexSafe (f a) = true) ->
  indexSafe (m ≫= f) = true.
Proof. intros Hm Hf. destruct m as [a | p]; simpl; [apply Hf | exact Hm]. Qed.

Lemma indexSafe_forRange {S X : Type} (body : S -> X -> Go S) (xs : list X) :
  (forall s x, indexSafe (body s x) = true) ->
  forall s, indexSafe (forRange body s xs) = true.
Proof.
  intros Hbody. induction xs as [| x xs IH]; intros s; simpl; [reflexivity |].
  apply indexSafe_bind; [apply Hbody | exact IH].
Qed.

Lemma indexSafe_deref {A : Type} (p : option A) : indexSafe (deref p) = true.
Proof. destruct p; reflexivity. Qed.

Lemma indexSafe_Set (g : GaugeVec) (lvs : list string) (v : float) :
  indexSafe (WithLabelValues_Set g lvs v) = true.
Proof. unfold WithLabelValues_Set. destruct (_ =? _)%nat; reflexivity. Qed.

Lemma indexSafe_Add (g : CounterVec) (lvs : list string) (v : float) :
  indexSafe (WithLabelValues_Add g lvs v) = true.
Proof.
  unfold WithLabelValues_Add.
  destruct (_ =? _)%nat; [destruct (PrimFloat.ltb _ _) |]; reflexivity.
Qed.

Lemma indexSafe_gaugeSet (c : GNMICollector) (f : gaugeField)
    (lvs : list string) (v : float) :
  indexSafe (gaugeSet c f lvs v) = true.
Proof.
  unfold gaugeSet. apply indexSafe_bind; [apply indexSafe_Set | reflexivity].
Qed.

(** A guard [n <= len(xs)] that holds makes [xs[i]] succeed for [i < n]. *)
Lemma index_guarded {X : Type} (xs : list X) (n i : nat) :
  (n <=? length xs)%nat = true -> (i < n)%nat ->
  exists x, xs !! i = Some x /\ index xs i = Ok x.
Proof.
  intros Hn Hi. apply index_lt. apply Nat.leb_le in Hn. lia.
Qed.

Create HintDb index_safe.

#[local] Hint Resolve indexSafe_gaugeSet indexSafe_Set indexSafe_Add
  indexSafe_deref : index_safe.

Section Properties.

Context `{Platform}.

Lemma indexSafe_handleInterfaces sw c path value :
  indexSafe (handleInterfaces sw c path value) = true.
Proof.
  unfold handleInterfaces.
  destruct (4 <=? length (Elem path))%nat eqn:Hlen; [| reflexivity].
  destruct (index_guarded _ 4 0 Hlen) as (e0 & _ & ->); [lia |].
  destruct (index_guarded _ 4 1 Hlen) as (e1 & _ & ->); [lia |].
  destruct (index_guarded _ 4 2 Hlen) as (e2 & _ & ->); [lia |].
  destruct (index_guarded _ 4 3 Hlen) as (e3 & _ & ->); [lia |].
  simpl.
  destruct (Name e0 =? "interfaces")%string; [| reflexivity].
  destruct (Name e2 =? "state")%string; [| reflexivity].
  destruct (Name e3 =? "counters")%string; [| reflexivity].
  destruct (GetJsonIetfVal value); [| reflexivity].
  repeat (apply indexSafe_bind; [auto with index_safe | intros ?]).
  auto with index_safe.
Qed.

Lemma indexSafe_handleQoS sw c path value :
  indexSafe (handleQoS sw c path value) = true.
Proof.
  unfold handleQoS.
  destruct (7 <=? length (Elem path))%nat eqn:Hlen; [| reflexivity].
  destruct (index_guarded _ 7 0 Hlen) as (e0 & _ & ->); [lia |].
  destruct (index_guarded _ 7 2 Hlen) as (e2 & _ & ->); [lia |].
  destruct (index_guarded _ 7 5 Hlen) as (e5 & _ & ->); [lia |].
  simpl.
  destruct (Name e0 =? "qos")%string; [| reflexivity].
  destruct (GetJsonIetfVal value); [| reflexivity].
  apply indexSafe_bind; auto with index_safe.
Qed.

Lemma indexSafe_handleOneUpdate sw c update :
  indexSafe (handleOneUpdate sw c update) = true.
Proof.
  unfold handleOneUpdate.
  apply indexSafe_bind; [auto with index_safe | intros path].
  apply indexSafe_bind; [apply indexSafe_handleInterfaces | intros c'].
  apply indexSafe_handleQoS.
Qed.

Lemma indexSafe_Arista_handleOneUpdate st update :
  indexSafe (Arista.handleOneUpdate st update) = true.
Proof.
  destruct st as [c out]. unfold Arista.handleOneUpdate.
  apply indexSafe_bind; [auto with index_safe | intros path].
  destruct (Origin path =? "arista")%string; [| reflexivity]. simpl.
  destruct (7 <? length (Elem path))%nat eqn:Hlen; [| reflexivity].
  assert (Hg : (8 <=? length (Elem path))%nat = true).
  { apply Nat.leb_le. apply Nat.ltb_lt in Hlen. lia. }
  destruct (index_guarded _ 8 7 Hg) as (e7 & _ & ->); [lia |].
  destruct (index_guarded _ 8 4 Hg) as (e4 & _ & ->); [lia |].
  destruct (index_guarded _ 8 6 Hg) as (e6 & _ & ->); [lia |].
  simpl.
  destruct (Name e7 =? "dropped-pkts")%string; [| reflexivity].
  apply indexSafe_bind; [auto with index_safe | intros g].
  destruct (0 <? _); reflexivity.
Qed.

(** C10. [handleUpdate] and [handleAristaUpdate] never index a path element
    out of bounds, whatever the response: each [path.Elem[i]] is reached only
    under a length guard (at least 4, at least 7, more than 7) that covers
    the indices used under it. *)
Theorem handlers_index_in_bounds (c : GNMICollector) (st : Arista.State)
    (response : SubscribeResponse) :
  indexSafe (handleUpdate c response) = true /\
  indexSafe (Arista.handleAristaUpdate st response) = true.
Proof.
  split.
  - destruct response as [n | b |]; simpl; try reflexivity.
    apply indexSafe_forRange. intros. apply indexSafe_handleOneUpdate.
  - destruct response as [n | b |]; simpl; try reflexivity.
    apply indexSafe_forRange. intros. apply indexSafe_Arista_handleOneUpdate.
Qed.

(** ** The metric vectors as a store *)

Lemma Ok_bind {A B : Type} (a : A) (f : A -> Go B) : (Ok a ≫= f) = f a.
Proof. reflexivity. Qed.

Lemma forRange_app {S X : Type} (body : S -> X -> Go S) (xs ys : list X) (s : S) :
  forRange body s (xs ++ ys) = (forRange body s xs ≫= fun s' => forRange body s' ys).
Proof.
  revert s. induction xs as [| x xs IH]; intros s; simpl; [reflexivity |].
  destruct (body s x) as [s' | p]; simpl; [apply IH | reflexivity].
Qed.

Lemma getGauge_putGauge c f g f' :
  getGauge (putGauge c f g) f' = if decide (f = f') then g else getGauge c f'.
Proof. destruct f, f'; reflexivity. Qed.

Lemma stored_setGauge c f lvs v f' k :
  stored (setGauge c f lvs v) f' k
  = if decide (f = f' /\ lvs = k) then Some v else stored c f' k.
Proof.
  unfold stored, setGauge. rewrite getGauge_putGauge.
  destruct (decide (f = f')) as [-> | Hf]; simpl.
  - destruct (decide (lvs = k)) as [-> | Hk].
    + rewrite lookup_insert_eq. rewrite decide_True; [reflexivity | auto].
    + rewrite lookup_insert_ne by exact Hk.
      rewrite decide_False; [reflexivity | intros [_ ?]; contradiction].
  - rewrite decide_False; [reflexivity | intros [? _]; contradiction].
Qed.

Lemma wellFormed_New t u p : wellFormed (NewGNMICollector t u p).
Proof. intros f. destruct f; reflexivity. Qed.

Lemma wellFormed_setGauge c f lvs v : wellFormed c -> wellFormed (setGauge c f lvs v).
Proof.
  intros Hwf f'. unfold setGauge. rewrite getGauge_putGauge.
  destruct (decide (f = f')) as [-> | _]; [| apply Hwf].
  rewrite <- (Hwf f'). reflexivity.
Qed.

(** With the declared number of label values, a write goes through. *)
Lemma gaugeSet_wellFormed c f lvs v :
  wellFormed c -> length lvs = length (declaredSchema f).2 ->
  gaugeSet c f lvs v = Ok (setGauge c f lvs v).
Proof.
  intros Hwf Hlen. unfold gaugeSet, WithLabelValues_Set.
  assert (Hn : gv_labelNames (getGauge c f) = (declaredSchema f).2).
  { rewrite <- (Hwf f). reflexivity. }
  assert (Hc : (length lvs =? length (gv_labelNames (getGauge c f)))%nat = true).
  { rewrite Hn, Hlen. apply Nat.eqb_refl. }
  rewrite Hc. reflexivity.
Qed.

Lemma writePoints_wellFormed pts : forall c,
  wellFormed c -> Forall arityOK pts ->
  writePoints c pts = Ok (applyPoints c pts) /\ wellFormed (applyPoints c pts).
Proof.
  induction pts as [| p pts IH]; intros c Hwf Hall; simpl.
  - split; [reflexivity | exact Hwf].
  - inversion Hall as [| ? ? Hp Hrest]; subst.
    unfold writePoints. simpl. fold (writePoints).
    replace (writePoint c p) with (Ok (setGauge c (pt_field p) (pt_labels p) (pt_value p)))
      by (symmetry; apply gaugeSet_wellFormed; assumption).
    simpl. apply IH; [apply wellFormed_setGauge; exact Hwf | exact Hrest].
Qed.

Lemma target_applyPoints pts : forall c, target (applyPoints c pts) = target c.
Proof.
  induction pts as [| p pts IH]; intros c; simpl; [reflexivity |].
  rewrite IH. reflexivity.
Qed.

(** Every stored child is an old one or one of the points written. *)
Lemma stored_applyPoints pts : forall c f k v,
  stored (applyPoints c pts) f k = Some v ->
  stored c f k = Some v \/
  exists p, p ∈ pts /\ pt_field p = f /\ pt_labels p = k /\ pt_value p = v.
Proof.
  induction pts as [| p pts IH]; intros c f k v Hs; simpl in Hs; [left; exact Hs |].
  destruct (IH _ _ _ _ Hs) as [Hold | (q & Hq & Hf & Hk & Hv)].
  - rewrite stored_setGauge in Hold.
    destruct (decide (pt_field p = f /\ pt_labels p = k)) as [[Hf Hk] | _].
    + right. exists p. repeat split; try assumption; [left | congruence].
    + left. exact Hold.
  - right. exists q. repeat split; try assumption. right. exact Hq.
Qed.

(** ** The points of an update *)

Lemma handleInterfaces_points sw c path value :
  handleInterfaces sw c path value = writePoints c (interfacesPoints sw path value).
Proof.
  unfold handleInterfaces, interfacesPoints, writePoints, index.
  destruct (Elem path) as [| e0 [| e1 [| e2 [| e3 rest]]]]; try reflexivity.
  simpl.
  destruct (Name e0 =? "interfaces")%string; [| reflexivity].
  destruct (Name e2 =? "state")%string; [| reflexivity].
  destruct (Name e3 =? "counters")%string; [| reflexivity].
  destruct (GetJsonIetfVal value) as [jsonVal |]; [| reflexivity].
  simpl. unfold writePoint; simpl.
  repeat (destruct (gaugeSet _ _ _ _) as [? | ?]; simpl; [| reflexivity]).
  reflexivity.
Qed.

Lemma handleQoS_points sw c path value :
  handleQoS sw c path value = writePoints c (qosPoints sw path value).
Proof.
  unfold handleQoS, qosPoints, writePoints, index.
  destruct (Elem path) as [| e0 [| e1 [| e2 [| e3 [| e4 [| e5 [| e6 rest]]]]]]];
    try reflexivity.
  simpl.
  destruct (Name e0 =? "qos")%string; [| reflexivity].
  destruct (GetJsonIetfVal value) as [jsonVal |]; [| reflexivity].
  simpl. unfold writePoint; simpl.
  repeat (destruct (gaugeSet _ _ _ _) as [? | ?]; simpl; [| reflexivity]).
  reflexivity.
Qed.

Lemma handleOneUpdate_points sw c update :
  handleOneUpdate sw c update = (updatePoints sw update ≫= writePoints c).
Proof.
  unfold handleOneUpdate, updatePoints.
  destruct (upd_Path update) as [path |]; simpl; [| reflexivity].
  rewrite handleInterfaces_points.
  transitivity (writePoints c (interfacesPoints sw path (upd_Val update))
                ≫= fun c' => writePoints c' (qosPoints sw path (upd_Val update))).
  - destruct (writePoints c _) as [c' |]; simpl;
      [apply handleQoS_points | reflexivity].
  - symmetry. apply forRange_app.
Qed.

Lemma interfacesPoints_arity sw path value :
  Forall arityOK (interfacesPoints sw path value).
Proof.
  unfold interfacesPoints.
  destruct (Elem path) as [| e0 [| e1 [| e2 [| e3 rest]]]]; try constructor.
  destruct (_ && _); [| constructor].
  destruct (GetJsonIetfVal value); [| constructor].
  repeat constructor.
Qed.

Lemma qosPoints_arity sw path value : Forall arityOK (qosPoints sw path value).
Proof.
  unfold qosPoints.
  destruct (Elem path) as [| e0 [| e1 [| e2 [| e3 [| e4 [| e5 [| e6 rest]]]]]]];
    try constructor.
  destruct (_ =? _)%string; [| constructor].
  destruct (GetJsonIetfVal value); [| constructor].
  repeat constructor.
Qed.

Lemma updatePoints_arity sw update pts :
  updatePoints sw update = Ok pts -> Forall arityOK pts.
Proof.
  unfold updatePoints. destruct (upd_Path update) as [path |]; simpl; [| discriminate].
  intros [= <-]. apply Forall_app. split;
    [apply interfacesPoints_arity | apply qosPoints_arity].
Qed.

(** On a well-formed collector an update goes through unless its path is
    nil, and leaves the collector well-formed. *)
Lemma handleOneUpdate_wellFormed sw c update :
  wellFormed c ->
  handleOneUpdate sw c update
  = (updatePoints sw update ≫= fun pts => Ok (applyPoints c pts)).
Proof.
  intros Hwf. rewrite handleOneUpdate_points.
  destruct (updatePoints sw update) as [pts | p] eqn:Hpts; simpl; [| reflexivity].
  apply writePoints_wellFormed; [exact Hwf |].
  eapply updatePoints_arity. exact Hpts.
Qed.

Lemma applyPoints_app c pts pts' :
  applyPoints c (pts ++ pts') = applyPoints (applyPoints c pts) pts'.
Proof. apply foldl_app. Qed.

Lemma wellFormed_applyPoints pts : forall c,
  wellFormed c -> wellFormed (applyPoints c pts).
Proof.
  induction pts as [| p pts IH]; intros c Hwf; simpl; [exact Hwf |].
  apply IH, wellFormed_setGauge, Hwf.
Qed.

Lemma mapGet_keyed name key value : mapGet (Key (keyed name key value)) key = value.
Proof. unfold mapGet, keyed; simpl. now rewrite lookup_singleton_eq. Qed.

(** The points of an interface-counter update. *)
Lemma updatePoints_counters sw iface path value jsonVal :
  isCountersPath iface path = true ->
  GetJsonIetfVal value = Some jsonVal ->
  updatePoints sw (mkUpdate (Some path) value)
  = Ok (countersPoints sw iface (parseCounters jsonVal)).
Proof.
  unfold isCountersPath, updatePoints, interfacesPoints, qosPoints. simpl.
  destruct (Elem path) as [| e0 [| e1 [| e2 [| e3 rest]]]]; try discriminate.
  intros Hp Hv.
  apply andb_prop in Hp as [Hp H3]. apply andb_prop in Hp as [Hp H2].
  apply andb_prop in Hp as [H0 H1].
  rewrite H0, H2, H3, Hv. simpl.
  apply String.eqb_eq in H1, H0. rewrite H1.
  assert (Hq : (Name e0 =? "qos")%string = false) by now rewrite H0.
  destruct rest as [| e4 [| e5 [| e6 rest]]]; try rewrite Hq.
  all: simpl; reflexivity.
Qed.

Lemma stored_countersPoints c sw iface counters :
  stored (applyPoints c (countersPoints sw iface counters))
    F_interfaceRxBytes [sw; iface] = Some (float64_of_int (InOctets counters)) /\
  stored (applyPoints c (countersPoints sw iface counters))
    F_interfaceTxBytes [sw; iface] = Some (float64_of_int (OutOctets counters)).
Proof.
  unfold countersPoints, applyPoints; simpl.
  rewrite !stored_setGauge.
  split; repeat (case_decide; try (destruct_and?; discriminate)); try reflexivity;
    exfalso; intuition congruence.
Qed.

(** Updates that carry a path go through on a well-formed collector. *)
Lemma forRange_handleOneUpdate_wellFormed sw us : forall c,
  wellFormed c -> forallb hasPath us = true ->
  exists c', forRange (handleOneUpdate sw) c us = Ok c' /\ wellFormed c' /\
             target c' = target c.
Proof.
  induction us as [| u us IH]; intros c Hwf Hall; simpl.
  - exists c. repeat split. exact Hwf.
  - simpl in Hall. apply andb_prop in Hall as [Hu Hall].
    rewrite handleOneUpdate_wellFormed by exact Hwf.
    unfold hasPath in Hu. unfold updatePoints.
    destruct (upd_Path u) as [path |]; [| discriminate]. simpl.
    destruct (IH (applyPoints c (interfacesPoints sw path (upd_Val u)
                                 ++ qosPoints sw path (upd_Val u)))) as (c' & Hc' & Hwf' & Ht).
    + apply wellFormed_applyPoints, Hwf.
    + exact Hall.
    + exists c'. repeat split; [exact Hc' | exact Hwf' |].
      rewrite Ht. apply target_applyPoints.
Qed.

(** ** The Arista handler, by positions *)

Lemma Arista_handleOneUpdate_positional c out path value :
  Arista.handleOneUpdate (c, out) (mkUpdate (Some path) value)
  = if Arista.recognized path then
      g ← WithLabelValues_Add (Arista.hwQueueDrops c) (Arista.labelsOf c path)
            (float64_of_int (GetUintVal value));
      Ok (Arista.putHwQueueDrops c g, (out ++ Arista.warningsOf c path value)%list)
    else Ok (c, out).
Proof.
  unfold Arista.handleOneUpdate, Arista.recognized, Arista.labelsOf,
    Arista.warningsOf. simpl.
  destruct (Origin path =? "arista")%string; [| reflexivity]. simpl.
  destruct (7 <? length (Elem path))%nat eqn:Hlen; [| reflexivity].
  assert (Hg : (8 <=? length (Elem path))%nat = true).
  { apply Nat.leb_le. apply Nat.ltb_lt in Hlen. lia. }
  destruct (index_guarded _ 8 7 Hg) as (e7 & -> & ->); [lia |].
  destruct (index_guarded _ 8 4 Hg) as (e4 & -> & ->); [lia |].
  destruct (index_guarded _ 8 6 Hg) as (e6 & -> & ->); [lia |].
  simpl.
  destruct (Name e7 =? "dropped-pkts")%string; [| reflexivity].
  destruct (WithLabelValues_Add _ _ _) as [g |]; simpl; [| reflexivity].
  destruct (0 <? GetUintVal value); [reflexivity |].
  now rewrite app_nil_r.
Qed.


Lemma forRange_points sw us : forall c acc,
  wellFormed c ->
  forRange (handleOneUpdate sw) (applyPoints c acc) us
  = (forRange (fun acc update =>
                 pts ← updatePoints sw update; Ok (acc ++ pts)%list) acc us
     ≫= fun pts => Ok (applyPoints c pts)).
Proof.
  induction us as [| u us IH]; intros c acc Hwf; simpl; [reflexivity |].
  rewrite handleOneUpdate_wellFormed by (apply wellFormed_applyPoints, Hwf).
  destruct (updatePoints sw u) as [pts | p]; simpl; [| reflexivity].
  rewrite <- applyPoints_app. apply IH, Hwf.
Qed.

(** ** Scenario A, counter semantics, determinism *)

(** C1. An update on the path interfaces / interface[name=eth0] / state /
    counters whose JSON value has "in-octets" equal to 1000000: handling it
    stores, in the received-bytes vector, a child whose label set is the
    collector's target (label "switch") and interface "eth0", with value
    1000000. *)
Theorem scenarioA_received_octets (c : GNMICollector) (origin : string)
    (timestamp : Z) (jsonVal : list Byte.byte) (data : gmap string JSON) :
  wellFormed c ->
  json_Unmarshal jsonVal = Some data ->
  data !! "in-octets" = Some (JNumber 1000000%float) ->
  exists c',
    handleUpdate c
      (SubscribeResponse_Update
         (mkNotification timestamp
            [mkUpdate
               (Some (mkPath origin
                        [elem "interfaces"; keyed "interface" "name" "eth0";
                         elem "state"; elem "counters"]))
               (Some (JsonIetfVal jsonVal))]))
    = Ok c' /\
    stored c' F_interfaceRxBytes [target c; "eth0"] = Some 1000000%float /\
    schema (interfaceRxBytes c')
    = ("st2110_switch_interface_rx_bytes", ["switch"; "interface"]) /\
    labelSet (gv_labelNames (interfaceRxBytes c')) [target c; "eth0"]
    = [("switch", target c); ("interface", "eth0")].
Proof.
  intros Hwf Hjson Hin.
  unfold handleUpdate, ntf_Update, forRange.
  rewrite handleOneUpdate_wellFormed by exact Hwf.
  erewrite (updatePoints_counters (target c) "eth0" _ _ jsonVal);
    [| vm_compute; reflexivity | reflexivity].
  rewrite !Ok_bind.
  assert (Hoct : InOctets (parseCounters jsonVal) = 1000000).
  { unfold parseCounters, asFloat64. rewrite Hjson, Hin.
    destruct (data !! "out-octets") as [[] |]; vm_compute; reflexivity. }
  set (pts := countersPoints _ _ _).
  pose proof (wellFormed_applyPoints pts c Hwf F_interfaceRxBytes) as Hschema.
  pose proof (f_equal snd Hschema) as Hnames.
  change (gv_labelNames (interfaceRxBytes (applyPoints c pts))
          = ["switch"; "interface"]) in Hnames.
  exists (applyPoints c pts). split; [reflexivity |]. split; [| split].
  - subst pts. rewrite (proj1 (stored_countersPoints _ _ _ _)), Hoct.
    vm_compute. reflexivity.
  - exact Hschema.
  - rewrite Hnames. reflexivity.
Qed.

(** C6. Decoding is a function of the update alone: the points an update
    makes the handler write are [updatePoints] of the switch name and the
    update, whatever the collector holds; and on a well-formed collector a
    whole response writes [responsePoints] of the target and the response. *)
Theorem decode_deterministic_stateless :
  (forall (sw : string) (c : GNMICollector) (update : Update),
     handleOneUpdate sw c update = (updatePoints sw update ≫= writePoints c)) /\
  (forall (c : GNMICollector) (response : SubscribeResponse),
     wellFormed c ->
     handleUpdate c response
     = (responsePoints (target c) response
        ≫= fun pts => Ok (applyPoints c pts))).
Proof.
  split; [apply handleOneUpdate_points |].
  intros c response Hwf.
  destruct response as [n | b |]; simpl; try reflexivity.
  exact (forRange_points (target c) (ntf_Update n) c [] Hwf).
Qed.


(** ** The receive loop *)

Lemma handles_false_points sw path value :
  handles path = false ->
  interfacesPoints sw path value = [] /\ qosPoints sw path value = [].
Proof.
  unfold handles, interfacesPoints, qosPoints.
  destruct (Elem path) as [| e0 [| e1 [| e2 [| e3 rest]]]]; try (split; reflexivity).
  intros Hh. apply orb_false_elim in Hh as [-> Hq]. split; [reflexivity |].
  destruct rest as [| e4 [| e5 [| e6 rest]]]; try reflexivity.
  simpl in Hq. now rewrite Hq.
Qed.

Lemma handleOneUpdate_unhandled sw c update :
  unhandled update = true -> handleOneUpdate sw c update = Ok c.
Proof.
  unfold unhandled. intros Hu. rewrite handleOneUpdate_points. unfold updatePoints.
  destruct (upd_Path update) as [path |]; [| discriminate]. simpl.
  apply negb_true_iff in Hu.
  destruct (handles_false_points sw path (upd_Val update) Hu) as [-> ->].
  reflexivity.
Qed.

Lemma receiveLoop_never_nil recv fuel : forall c i,
  returnedNil (receiveLoop fuel c recv i) = false.
Proof.
  induction fuel as [| fuel IH]; intros c i; simpl; [reflexivity |].
  destruct (recv i) as [response | err]; [| reflexivity].
  destruct (handleUpdate c response) as [c' | p]; [apply IH | reflexivity].
Qed.

Lemma receiveLoop_until_error recv err rs : forall c i fuel,
  (forall j r, rs !! j = Some r -> recv (i + j)%nat = Received r) ->
  recv (i + length rs)%nat = RecvError err ->
  (length rs < fuel)%nat ->
  receiveLoop fuel c recv i
  = Some (c' ← forRange handleUpdate c rs;
          Ok (c', Some (fmt_Errorf "stream error: " err))).
Proof.
  induction rs as [| r rs IH]; intros c i fuel Hrs Herr Hfuel.
  - destruct fuel as [| fuel]; [simpl in Hfuel; lia |]. simpl.
    simpl in Herr. rewrite Nat.add_0_r in Herr. now rewrite Herr.
  - destruct fuel as [| fuel]; [simpl in Hfuel; lia |]. simpl.
    pose proof (Hrs 0%nat r eq_refl) as H0. rewrite Nat.add_0_r in H0.
    rewrite H0. destruct (handleUpdate c r) as [c' | p]; simpl; [| reflexivity].
    apply IH.
    + intros j r' Hj. replace (S i + j)%nat with (i + S j)%nat by lia.
      apply Hrs. exact Hj.
    + replace (S i + length rs)%nat with (i + length (r :: rs))%nat
        by (simpl; lia). exact Herr.
    + simpl in Hfuel. lia.
Qed.

(** C3. [Subscribe] never returns a nil error, so a nil return is never
    seen without a cancellation; and an error of [Recv] ends the loop and
    comes back to the caller wrapped as a stream error, the responses
    received before it having been handled in order. *)
Theorem subscribe_returns_stream_error :
  (forall (fuel : nat) (c : GNMICollector) (s : Session),
     returnedNil (Subscribe fuel c s) = false) /\
  (forall (c : GNMICollector) (s : Session) (rs : list SubscribeResponse)
          (err : error) (fuel : nat),
     dialResult s = None -> subscribeResult s = None -> sendResult s = None ->
     (forall i r, rs !! i = Some r -> recv s i = Received r) ->
     recv s (length rs) = RecvError err ->
     (length rs < fuel)%nat ->
     Subscribe fuel c s
     = Some (c' ← forRange handleUpdate c rs;
             Ok (c', Some (fmt_Errorf "stream error: " err)))).
Proof.
  split.
  - intros fuel c s. unfold Subscribe.
    destruct (Connect c s); [reflexivity |].
    destruct (subscribeResult s); [reflexivity |].
    destruct (sendResult s); [reflexivity |].
    apply receiveLoop_never_nil.
  - intros c s rs err fuel Hdial Hsub Hsend Hrs Herr Hfuel.
    unfold Subscribe, Connect. rewrite Hdial, Hsub, Hsend.
    apply receiveLoop_until_error; [| exact Herr | exact Hfuel].
    intros j r Hj. simpl. apply Hrs, Hj.
Qed.

(** C4, amended. The goroutine of a target runs one session: what it does
    depends on the first connection alone, and when [Subscribe] returns an
    error it reports that error and ends, having opened one connection.
    There is no retry and no wait. *)
Theorem goroutine_runs_one_session :
  (forall (fuel : nat) (c : GNMICollector) (name : string) (net net' : Network),
     net 0%nat = net' 0%nat ->
     collectorGoroutine fuel c name net = collectorGoroutine fuel c name net') /\
  (forall (fuel : nat) (c c' : GNMICollector) (name : string) (net : Network)
          (err : error),
     Subscribe fuel c (net 0%nat) = Some (Ok (c', Some err)) ->
     collectorGoroutine fuel c name net
     = Some (Ok (mkGoroutineEnd c' 1 (Some (name, err))))).
Proof.
  split.
  - intros fuel c name net net' Heq. unfold collectorGoroutine. now rewrite Heq.
  - intros fuel c c' name net err Hsub. unfold collectorGoroutine. now rewrite Hsub.
Qed.

(** C5, amended. A response whose updates all fail the handler's tests is
    handled without any report (the handler has no error result) and leaves
    the collector as it was; the receive loop then goes on with the next
    call of [Recv]. *)
Theorem unhandled_update_skipped (c : GNMICollector) (timestamp : Z)
    (updates : list Update) :
  forallb unhandled updates = true ->
  handleUpdate c (SubscribeResponse_Update (mkNotification timestamp updates))
  = Ok c /\
  forall (fuel : nat) (recv : nat -> RecvResult) (i : nat),
    recv i = Received (SubscribeResponse_Update (mkNotification timestamp updates)) ->
    receiveLoop (S fuel) c recv i = receiveLoop fuel c recv (S i).
Proof.
  intros Hall.
  assert (Hh : handleUpdate c
                 (SubscribeResponse_Update (mkNotification timestamp updates)) = Ok c).
  { simpl. induction updates as [| u us IH]; simpl; [reflexivity |].
    simpl in Hall. apply andb_prop in Hall as [Hu Hus].
    rewrite (handleOneUpdate_unhandled _ _ _ Hu). simpl. apply IH, Hus. }
  split; [exact Hh |].
  intros fuel recv i Hrecv.
  change (receiveLoop (S fuel) c recv i)
    with (match recv i with
          | RecvError err => Some (Ok (c, Some (fmt_Errorf "stream error: " err)))
          | Received response =>
              match handleUpdate c response with
              | Ok c' => receiveLoop fuel c' recv (S i)
              | Panic p => Some (Panic p)
              end
          end).
  now rewrite Hrecv, Hh.
Qed.

(** ** Matching by position, and the labels written *)


Lemma updatePoints_labels sw update pts :
  updatePoints sw update = Ok pts ->
  forall p, p ∈ pts -> exists rest, pt_labels p = sw :: rest.
Proof.
  unfold updatePoints. destruct (upd_Path update) as [path |]; simpl; [| discriminate].
  intros [= <-] p Hp. apply elem_of_app in Hp as [Hp | Hp].
  - unfold interfacesPoints in Hp.
    destruct (Elem path) as [| e0 [| e1 [| e2 [| e3 rest]]]];
      try (apply elem_of_nil in Hp; contradiction).
    destruct (_ && _); [| apply elem_of_nil in Hp; contradiction].
    destruct (GetJsonIetfVal _); [| apply elem_of_nil in Hp; contradiction].
    unfold countersPoints in Hp.
    repeat (apply elem_of_cons in Hp as [-> | Hp]; [eexists; reflexivity |]).
    apply elem_of_nil in Hp; contradiction.
  - unfold qosPoints in Hp.
    destruct (Elem path) as [| e0 [| e1 [| e2 [| e3 [| e4 [| e5 [| e6 rest]]]]]]];
      try (apply elem_of_nil in Hp; contradiction).
    destruct (_ =? _)%string; [| apply elem_of_nil in Hp; contradiction].
    destruct (GetJsonIetfVal _); [| apply elem_of_nil in Hp; contradiction].
    repeat (apply elem_of_cons in Hp as [-> | Hp]; [eexists; reflexivity |]).
    apply elem_of_nil in Hp; contradiction.
Qed.

(** Handling a response keeps the target label on every child. *)
Lemma targetLabelled_handleUpdate t c response c' :
  targetLabelled t c -> handleUpdate c response = Ok c' -> targetLabelled t c'.
Proof.
  intros (Hwf & Ht & Hkeys) Hrun.
  destruct response as [n | b |]; simpl in Hrun;
    [| injection Hrun as <-; repeat split; assumption
     | injection Hrun as <-; repeat split; assumption].
  rewrite Ht in Hrun.
  revert c Hwf Ht Hkeys Hrun.
  induction (ntf_Update n) as [| u us IH]; intros c Hwf Ht Hkeys Hrun; simpl in Hrun.
  - injection Hrun as <-. repeat split; assumption.
  - rewrite handleOneUpdate_wellFormed in Hrun by exact Hwf.
    destruct (updatePoints t u) as [pts |] eqn:Hpts; simpl in Hrun; [| discriminate].
    apply IH in Hrun; [exact Hrun | apply wellFormed_applyPoints, Hwf
                      | now rewrite target_applyPoints |].
    intros f k v Hs. apply stored_applyPoints in Hs as [Hold | (p & Hp & _ & <- & _)].
    + eapply Hkeys, Hold.
    + eapply updatePoints_labels; [exact Hpts | exact Hp].
Qed.

Lemma declared_switch_first f : exists rest, (declaredSchema f).2 = "switch" :: rest.
Proof. destruct f; eexists; reflexivity. Qed.

Lemma moduleStatusCallback_Ok e pdu e' :
  Evertz.moduleStatusCallback e pdu = Ok e' ->
  exists v, Evertz.moduleStatus e'
            = setChild (Evertz.moduleStatus e) ["1"; "5"; "unknown"] v.
Proof.
  unfold Evertz.moduleStatusCallback. simpl.
  destruct (Evertz.pdu_Value pdu); simpl; try discriminate.
  unfold WithLabelValues_Set. destruct (_ =? _)%nat; simpl; [| discriminate].
  intros [= <-]. eexists. reflexivity.
Qed.

Lemma targetLabelled_New t u p : targetLabelled t (NewGNMICollector t u p).
Proof.
  split; [apply wellFormed_New | split; [reflexivity |]].
  intros f k v Hs. destruct f; unfold stored in Hs; simpl in Hs;
    rewrite lookup_empty in Hs; discriminate.
Qed.

Lemma targetLabelled_run t rs : forall c c',
  targetLabelled t c -> forRange handleUpdate c rs = Ok c' -> targetLabelled t c'.
Proof.
  induction rs as [| r rs IH]; intros c c' Hc Hrun; simpl in Hrun.
  - now injection Hrun as <-.
  - destruct (handleUpdate c r) as [c1 |] eqn:Hr; simpl in Hrun; [| discriminate].
    eapply IH; [| exact Hrun]. eapply targetLabelled_handleUpdate; eassumption.
Qed.

Lemma constantLabels_New t community :
  constantLabels (Evertz.NewEvertzEQXExporter t community).
Proof.
  split; [reflexivity |]. intros k v Hs. simpl in Hs.
  rewrite lookup_empty in Hs. discriminate.
Qed.

Lemma constantLabels_walk pdus : forall e e',
  constantLabels e -> forRange Evertz.moduleStatusCallback e pdus = Ok e' ->
  constantLabels e'.
Proof.
  induction pdus as [| pdu pdus IH]; intros e e' [Hn Hk] Hloop; simpl in Hloop.
  - injection Hloop as <-. split; assumption.
  - destruct (Evertz.moduleStatusCallback e pdu) as [e2 |] eqn:Hcb;
      simpl in Hloop; [| discriminate].
    apply moduleStatusCallback_Ok in Hcb as [v Hcb].
    apply (IH e2); [| exact Hloop]. unfold constantLabels. rewrite Hcb.
    split; [exact Hn |]. intros k v' Hs. simpl in Hs.
    destruct (decide (["1"; "5"; "unknown"] = k)) as [<- | Hne]; [reflexivity |].
    rewrite lookup_insert_ne in Hs by exact Hne. eapply Hk, Hs.
Qed.

(** C8, amended. Every child written by the generic collector carries the
    collector's target as the value of its first label, "switch": this holds
    of every vector after any run of responses from a new collector.  The
    Evertz exporter does not label by target: every child of its
    module-status vector has the label set chassis "1", slot "5", module
    type "unknown". *)
Theorem target_label_by_collector :
  (forall (t u p : string) (rs : list SubscribeResponse) (c' : GNMICollector),
     forRange handleUpdate (NewGNMICollector t u p) rs = Ok c' ->
     forall (f : gaugeField) (k : list string) (v : float),
       stored c' f k = Some v ->
       head (labelSet (gv_labelNames (getGauge c' f)) k) = Some ("switch", t)) /\
  (forall (t community : string) (walk : Evertz.Walk)
          (e' : Evertz.EvertzEQXExporter) (err : option error),
     Evertz.collectSNMP (Evertz.NewEvertzEQXExporter t community) walk = Ok (e', err) ->
     forall (k : list string) (v : float),
       gv_values (Evertz.moduleStatus e') !! k = Some v ->
       labelSet (gv_labelNames (Evertz.moduleStatus e')) k
       = [("chassis", "1"); ("slot", "5"); ("module_type", "unknown")]).
Proof.
  split.
  - intros t u p rs c' Hrun.
    assert (Hinv : targetLabelled t c').
    { eapply targetLabelled_run; [apply targetLabelled_New | exact Hrun]. }
    destruct Hinv as (Hwf & _ & Hkeys). intros f k v Hs.
    destruct (Hkeys f k v Hs) as [rest ->].
    destruct (declared_switch_first f) as [names Hnames].
    pose proof (f_equal snd (Hwf f)) as Hn.
    change (gv_labelNames (getGauge c' f) = (declaredSchema f).2) in Hn.
    rewrite Hn, Hnames. reflexivity.
  - intros t community walk e' err Hrun. unfold Evertz.collectSNMP in Hrun.
    destruct (forRange _ _ _) as [e1 |] eqn:Hloop; simpl in Hrun; [| discriminate].
    injection Hrun as <- _.
    assert (Hinv : constantLabels e1).
    { eapply constantLabels_walk; [apply constantLabels_New | exact Hloop]. }
    destruct Hinv as [Hn Hk]. intros k v Hs. rewrite (Hk k v Hs), Hn. reflexivity.
Qed.

End Properties.

(** * Further properties of the collectors *)

Section MoreProperties.

Context `{Platform}.

(** ** The store after a run of points *)

Lemma gaugeSet_setGauge c f lvs v c' :
  gaugeSet c f lvs v = Ok c' -> c' = setGauge c f lvs v.
Proof.
  unfold gaugeSet, WithLabelValues_Set, setGauge, setChild.
  destruct (_ =? _)%nat; simpl; [| discriminate]. now intros [= <-].
Qed.

Lemma writePoints_applyPoints pts : forall c c',
  writePoints c pts = Ok c' -> c' = applyPoints c pts.
Proof.
  induction pts as [| p pts IH]; intros c c'; simpl.
  - now intros [= <-].
  - unfold writePoints; simpl. fold writePoints.
    destruct (writePoint c p) as [c1 |] eqn:Hp; simpl; [| discriminate].
    apply gaugeSet_setGauge in Hp. subst c1. apply IH.
Qed.

Lemma GaugeVec_ext (g1 g2 : GaugeVec) :
  schema g1 = schema g2 -> (forall k, gv_values g1 !! k = gv_values g2 !! k) ->
  g1 = g2.
Proof.
  destruct g1 as [n1 l1 v1], g2 as [n2 l2 v2]. unfold schema; simpl.
  intros [= -> ->] Hv. f_equal. apply map_eq, Hv.
Qed.

Lemma collector_ext (c1 c2 : GNMICollector) :
  target c1 = target c2 -> username c1 = username c2 ->
  password c1 = password c2 -> (forall f, getGauge c1 f = getGauge c2 f) ->
  c1 = c2.
Proof.
  intros Ht Hu Hp Hg.
  pose proof (Hg F_interfaceRxBytes) as H1. pose proof (Hg F_interfaceTxBytes) as H2.
  pose proof (Hg F_interfaceRxErrors) as H3. pose proof (Hg F_interfaceTxErrors) as H4.
  pose proof (Hg F_interfaceRxDrops) as H5. pose proof (Hg F_interfaceTxDrops) as H6.
  pose proof (Hg F_qosBufferUtil) as H7. pose proof (Hg F_qosDroppedPackets) as H8.
  pose proof (Hg F_multicastGroups) as H9.
  destruct c1, c2; simpl in *. congruence.
Qed.

Lemma stored_applyPoints_last pts : forall c f k,
  stored (applyPoints c pts) f k
  = match lastWrite pts f k with
    | Some v => Some v
    | None => stored c f k
    end.
Proof.
  induction pts as [| p pts IH]; intros c f k; simpl; [reflexivity |].
  rewrite IH. destruct (lastWrite pts f k); [reflexivity |].
  rewrite stored_setGauge. now destruct (decide _).
Qed.

Lemma lastWrite_None pts f k :
  (forall p, p ∈ pts -> ~ (pt_field p = f /\ pt_labels p = k)) ->
  lastWrite pts f k = None.
Proof.
  induction pts as [| p pts IH]; intros Hno; simpl; [reflexivity |].
  rewrite IH by (intros q Hq; apply Hno; now right).
  rewrite decide_False; [reflexivity | apply Hno; now left].
Qed.

Lemma schema_applyPoints pts : forall c f,
  schema (getGauge (applyPoints c pts) f) = schema (getGauge c f).
Proof.
  induction pts as [| p pts IH]; intros c f; simpl; [reflexivity |].
  rewrite IH. unfold setGauge. rewrite getGauge_putGauge.
  destruct (decide (pt_field p = f)) as [<- | _]; reflexivity.
Qed.

Lemma credentials_applyPoints pts : forall c,
  username (applyPoints c pts) = username c /\
  password (applyPoints c pts) = password c.
Proof.
  induction pts as [| p pts IH]; intros c; simpl; [split; reflexivity |].
  destruct (IH (setGauge c (pt_field p) (pt_labels p) (pt_value p))) as [-> ->].
  split; reflexivity.
Qed.

Lemma getGauge_applyPoints_other pts f : forall c,
  (forall p, p ∈ pts -> pt_field p <> f) ->
  getGauge (applyPoints c pts) f = getGauge c f.
Proof.
  induction pts as [| p pts IH]; intros c Hno; simpl; [reflexivity |].
  rewrite IH by (intros q Hq; apply Hno; now right).
  unfold setGauge. rewrite getGauge_putGauge.
  rewrite decide_False; [reflexivity | apply Hno; now left].
Qed.

Lemma applyPoints_idempotent pts c :
  applyPoints (applyPoints c pts) pts = applyPoints c pts.
Proof.
  apply collector_ext.
  - now rewrite !target_applyPoints.
  - now rewrite !(proj1 (credentials_applyPoints _ _)).
  - now rewrite !(proj2 (credentials_applyPoints _ _)).
  - intros f. apply GaugeVec_ext; [now rewrite !schema_applyPoints |].
    intros k. change (stored (applyPoints (applyPoints c pts) pts) f k
                      = stored (applyPoints c pts) f k).
    rewrite !stored_applyPoints_last. now destruct (lastWrite pts f k).
Qed.

(** What a run of updates does is to apply the points of its updates. *)
Lemma forRange_handleOneUpdate_applied sw us : forall c c',
  forRange (handleOneUpdate sw) c us = Ok c' ->
  exists pts,
    c' = applyPoints c pts /\
    forall p, p ∈ pts ->
      exists u ptsu, u ∈ us /\ updatePoints sw u = Ok ptsu /\ p ∈ ptsu.
Proof.
  induction us as [| u us IH]; intros c c' Hrun; simpl in Hrun.
  - injection Hrun as <-. exists []. split; [reflexivity |].
    intros p Hp. apply elem_of_nil in Hp. contradiction.
  - rewrite handleOneUpdate_points in Hrun.
    destruct (updatePoints sw u) as [ptsu |] eqn:Hu; simpl in Hrun; [| discriminate].
    destruct (writePoints c ptsu) as [c1 |] eqn:Hw; simpl in Hrun; [| discriminate].
    apply writePoints_applyPoints in Hw. subst c1.
    destruct (IH _ _ Hrun) as (pts & -> & Hpts).
    exists (ptsu ++ pts)%list. split; [now rewrite applyPoints_app |].
    intros p Hp. apply elem_of_app in Hp as [Hp | Hp].
    + exists u, ptsu. repeat split; [now left | exact Hu | exact Hp].
    + destruct (Hpts p Hp) as (u' & ptsu' & Hu' & Hpu & Hin).
      exists u', ptsu'. repeat split; [now right | exact Hpu | exact Hin].
Qed.

Lemma updatePoints_not_multicast sw update pts :
  updatePoints sw update = Ok pts ->
  forall p, p ∈ pts -> pt_field p <> F_multicastGroups.
Proof.
  unfold updatePoints. destruct (upd_Path update) as [path |]; simpl; [| discriminate].
  intros [= <-] p Hp. apply elem_of_app in Hp as [Hp | Hp].
  - unfold interfacesPoints in Hp.
    destruct (Elem path) as [| e0 [| e1 [| e2 [| e3 rest]]]];
      try (apply elem_of_nil in Hp; contradiction).
    destruct (_ && _); [| apply elem_of_nil in Hp; contradiction].
    destruct (GetJsonIetfVal _); [| apply elem_of_nil in Hp; contradiction].
    unfold countersPoints in Hp.
    repeat (apply elem_of_cons in Hp as [-> | Hp]; [discriminate |]).
    apply elem_of_nil in Hp; contradiction.
  - unfold qosPoints in Hp.
    destruct (Elem path) as [| e0 [| e1 [| e2 [| e3 [| e4 [| e5 [| e6 rest]]]]]]];
      try (apply elem_of_nil in Hp; contradiction).
    destruct (_ =? _)%string; [| apply elem_of_nil in Hp; contradiction].
    destruct (GetJsonIetfVal _); [| apply elem_of_nil in Hp; contradiction].
    repeat (apply elem_of_cons in Hp as [-> | Hp]; [discriminate |]).
    apply elem_of_nil in Hp; contradiction.
Qed.

(** X1. Handling a response never changes the target, the credentials, or
    the name and label names of any vector, and never writes to the
    multicast-groups vector. *)
Theorem handleUpdate_preserves (c c' : GNMICollector) (response : SubscribeResponse) :
  handleUpdate c response = Ok c' ->
  target c' = target c /\ username c' = username c /\ password c' = password c /\
  (forall f, schema (getGauge c' f) = schema (getGauge c f)) /\
  multicastGroups c' = multicastGroups c.
Proof.
  intros Hrun.
  assert (Hpts : exists pts, c' = applyPoints c pts /\
                   forall p, p ∈ pts -> pt_field p <> F_multicastGroups).
  { destruct response as [n | b |]; simpl in Hrun.
    - destruct (forRange_handleOneUpdate_applied _ _ _ _ Hrun) as (pts & -> & Hfrom).
      exists pts. split; [reflexivity |]. intros p Hp.
      destruct (Hfrom p Hp) as (u & ptsu & _ & Hu & Hin).
      eapply updatePoints_not_multicast; eassumption.
    - injection Hrun as <-. exists []. split; [reflexivity |].
      intros p Hp. apply elem_of_nil in Hp. contradiction.
    - injection Hrun as <-. exists []. split; [reflexivity |].
      intros p Hp. apply elem_of_nil in Hp. contradiction. }
  destruct Hpts as (pts & -> & Hno).
  split; [apply target_applyPoints |].
  split; [apply credentials_applyPoints |].
  split; [apply credentials_applyPoints |].
  split; [intros f; apply schema_applyPoints |].
  exact (getGauge_applyPoints_other pts F_multicastGroups c Hno).
Qed.

Lemma handleUpdate_wellFormed c response :
  wellFormed c ->
  handleUpdate c response
  = (responsePoints (target c) response ≫= fun pts => Ok (applyPoints c pts)).
Proof.
  intros Hwf. destruct response as [n | b |]; simpl; try reflexivity.
  exact (forRange_points (target c) (ntf_Update n) c [] Hwf).
Qed.

(** X2. Handling is idempotent: on a well-formed collector, a response
    handled a second time leaves the collector as the first handling left
    it. *)
Theorem handleUpdate_idempotent (c c1 : GNMICollector) (response : SubscribeResponse) :
  wellFormed c ->
  handleUpdate c response = Ok c1 ->
  handleUpdate c1 response = Ok c1.
Proof.
  intros Hwf Hrun. rewrite handleUpdate_wellFormed in Hrun by exact Hwf.
  destruct (responsePoints (target c) response) as [pts |] eqn:Hpts;
    simpl in Hrun; [| discriminate].
  injection Hrun as <-.
  rewrite handleUpdate_wellFormed by (apply wellFormed_applyPoints, Hwf).
  rewrite target_applyPoints, Hpts, Ok_bind.
  now rewrite applyPoints_idempotent.
Qed.

(** ** Values, paths and payloads the handler meets *)

Lemma updatePoints_noJsonIetf sw path value :
  GetJsonIetfVal value = None -> updatePoints sw (mkUpdate (Some path) value) = Ok [].
Proof.
  intros Hv. unfold updatePoints, interfacesPoints, qosPoints. simpl. rewrite Hv.
  destruct (Elem path) as [| e0 [| e1 [| e2 [| e3 [| e4 [| e5 [| e6 rest]]]]]]];
    simpl; try reflexivity;
    destruct (_ && _); destruct (Name e0 =? "qos")%string; reflexivity.
Qed.

(** X3. An update whose value is not JSON-IETF (a scalar, or plain JSON) is
    passed over, whatever its path: a response made of such updates leaves
    the collector as it was. *)
Theorem non_ietf_values_ignored (c : GNMICollector) (timestamp : Z)
    (updates : list Update) :
  forallb carriesNoJsonIetf updates = true ->
  handleUpdate c (SubscribeResponse_Update (mkNotification timestamp updates)) = Ok c.
Proof.
  intros Hall. simpl. induction updates as [| u us IH]; simpl; [reflexivity |].
  simpl in Hall. apply andb_prop in Hall as [Hu Hus].
  unfold carriesNoJsonIetf, hasPath in Hu. apply andb_prop in Hu as [Hp Hv].
  destruct u as [[path |] value]; simpl in *; [| discriminate].
  destruct (GetJsonIetfVal value) eqn:Hval; [discriminate |].
  rewrite handleOneUpdate_points, (updatePoints_noJsonIetf _ _ _ Hval). simpl.
  apply IH, Hus.
Qed.

(** X4. An update without a path makes the handler panic on a nil
    dereference: on a well-formed collector, whatever updates with paths
    come before it and whatever comes after. *)
Theorem nil_path_panics (c : GNMICollector) (timestamp : Z)
    (before after : list Update) (update : Update) :
  wellFormed c ->
  forallb hasPath before = true ->
  upd_Path update = None ->
  handleUpdate c
    (SubscribeResponse_Update (mkNotification timestamp (before ++ update :: after)))
  = Panic NilDereference.
Proof.
  intros Hwf Hbefore Hnil. simpl. rewrite forRange_app.
  destruct (forRange_handleOneUpdate_wellFormed (target c) before c Hwf Hbefore)
    as (c1 & -> & _ & _).
  rewrite Ok_bind. destruct update as [[path |] value]; simpl in Hnil;
    [discriminate | reflexivity].
Qed.




(** X6. A payload that does not decode, or that has no number under
    "in-octets" and "out-octets", is not skipped: the octet gauges of the
    interface are written, with 0. *)
Theorem undecodable_payload_writes_zero (sw : string) (c : GNMICollector)
    (path : Path) (value : option TypedValue) (iface : string)
    (jsonVal : list Byte.byte) :
  wellFormed c ->
  isCountersPath iface path = true ->
  GetJsonIetfVal value = Some jsonVal ->
  match json_Unmarshal jsonVal with
  | None => True
  | Some data =>
      asFloat64 data "in-octets" = None /\ asFloat64 data "out-octets" = None
  end ->
  exists c',
    handleOneUpdate sw c (mkUpdate (Some path) value) = Ok c' /\
    stored c' F_interfaceRxBytes [sw; iface] = Some 0%float /\
    stored c' F_interfaceTxBytes [sw; iface] = Some 0%float.
Proof.
  intros Hwf Hpath Hval Hbad.
  rewrite handleOneUpdate_wellFormed by exact Hwf.
  rewrite (updatePoints_counters sw iface _ _ jsonVal Hpath Hval), Ok_bind.
  exists (applyPoints c (countersPoints sw iface (parseCounters jsonVal))).
  split; [reflexivity |].
  destruct (stored_countersPoints c sw iface (parseCounters jsonVal)) as [-> ->].
  assert (Hz : InOctets (parseCounters jsonVal) = 0 /\
               OutOctets (parseCounters jsonVal) = 0).
  { unfold parseCounters. destruct (json_Unmarshal jsonVal) as [data |];
      [| split; reflexivity].
    destruct Hbad as [-> ->]. split; reflexivity. }
  destruct Hz as [-> ->]. split; reflexivity.
Qed.



(** X8. The handler's positional tests agree with the paths the collector
    subscribes to: a path whose first element names are those of a declared
    path passes the tests. *)
Theorem declared_paths_are_handled (t path : Path) :
  t ∈ subscribePaths -> followsNames t path -> handles path = true.
Proof.
  unfold subscribePaths, followsNames, namesOf, handles.
  intros Ht Hnames.
  apply elem_of_cons in Ht as [-> | Ht]; [| apply elem_of_cons in Ht as [-> | Ht]].
  - destruct (Elem path) as [| e0 [| e1 [| e2 [| e3 rest]]]]; try discriminate.
    simpl in Hnames. injection Hnames as H0 _ H2 H3.
    now rewrite H0, H2, H3.
  - destruct (Elem path) as [| e0 [| e1 [| e2 [| e3 [| e4 [| e5 [| e6 rest]]]]]]];
      try discriminate.
    simpl in Hnames. injection Hnames as H0 _ _ _ _ _ _.
    rewrite H0. reflexivity.
  - apply elem_of_nil in Ht. contradiction.
Qed.

(** ** Queue statistics, and what an update leaves alone *)

Lemma updatePoints_qos sw iface queue path value jsonVal :
  isQosPath iface queue path = true ->
  GetJsonIetfVal value = Some jsonVal ->
  updatePoints sw (mkUpdate (Some path) value)
  = Ok [ mkMetricPoint F_qosBufferUtil [sw; iface; queue]
           (BufferUtilization (parseQoSStats jsonVal));
         mkMetricPoint F_qosDroppedPackets [sw; iface; queue]
           (float64_of_int (DroppedPackets (parseQoSStats jsonVal))) ].
Proof.
  unfold isQosPath, updatePoints, interfacesPoints, qosPoints. simpl.
  destruct (Elem path) as [| e0 [| e1 [| e2 [| e3 [| e4 [| e5 [| e6 rest]]]]]]];
    try discriminate.
  intros Hp Hv.
  apply andb_prop in Hp as [Hp H5]. apply andb_prop in Hp as [H0 H2].
  apply String.eqb_eq in H2, H5. rewrite H0, Hv, H2, H5.
  apply String.eqb_eq in H0. rewrite H0. reflexivity.
Qed.

(** X9. A queue update (first element "qos", at least seven elements) with
    a JSON-IETF payload stores, under the target, the interface named by
    the key of element 2 and the queue named by the key of element 5, the
    buffer utilization as the payload gives it and the dropped-packet
    count; every child with other label values is left as it was. *)
Theorem qos_update_stored (sw : string) (c : GNMICollector) (path : Path)
    (value : option TypedValue) (iface queue : string) (jsonVal : list Byte.byte) :
  wellFormed c ->
  isQosPath iface queue path = true ->
  GetJsonIetfVal value = Some jsonVal ->
  exists c',
    handleOneUpdate sw c (mkUpdate (Some path) value) = Ok c' /\
    stored c' F_qosBufferUtil [sw; iface; queue]
    = Some (BufferUtilization (parseQoSStats jsonVal)) /\
    stored c' F_qosDroppedPackets [sw; iface; queue]
    = Some (float64_of_int (DroppedPackets (parseQoSStats jsonVal))) /\
    (forall data u,
       json_Unmarshal jsonVal = Some data ->
       data !! "buffer-utilization" = Some (JNumber u) ->
       stored c' F_qosBufferUtil [sw; iface; queue] = Some u) /\
    (forall f k, k <> [sw; iface; queue] -> stored c' f k = stored c f k).
Proof.
  intros Hwf Hpath Hval.
  rewrite handleOneUpdate_wellFormed by exact Hwf.
  rewrite (updatePoints_qos sw iface queue _ _ jsonVal Hpath Hval), Ok_bind.
  eexists. split; [reflexivity |].
  assert (Hutil : forall c0 pts,
            pts = [ mkMetricPoint F_qosBufferUtil [sw; iface; queue]
                      (BufferUtilization (parseQoSStats jsonVal));
                    mkMetricPoint F_qosDroppedPackets [sw; iface; queue]
                      (float64_of_int (DroppedPackets (parseQoSStats jsonVal))) ] ->
            stored (applyPoints c0 pts) F_qosBufferUtil [sw; iface; queue]
            = Some (BufferUtilization (parseQoSStats jsonVal))).
  { intros c0 pts ->. unfold applyPoints; simpl. rewrite !stored_setGauge.
    repeat (case_decide; try (destruct_and?; discriminate)); try reflexivity;
      exfalso; intuition congruence. }
  split; [apply Hutil; reflexivity |]. split; [| split].
  - unfold applyPoints; simpl. rewrite !stored_setGauge.
    repeat (case_decide; try (destruct_and?; discriminate)); try reflexivity;
      exfalso; intuition congruence.
  - intros data u Hdata Hu. rewrite (Hutil c _ eq_refl). f_equal.
    unfold parseQoSStats, asFloat64. rewrite Hdata, Hu.
    destruct (data !! "dropped-packets") as [[] |]; reflexivity.
  - intros f k Hk. rewrite stored_applyPoints_last. rewrite lastWrite_None; [reflexivity |].
    intros p Hp [_ Hlabels]. apply Hk.
    repeat (apply elem_of_cons in Hp as [-> | Hp]; [now symmetry |]).
    apply elem_of_nil in Hp. contradiction.
Qed.

(** X10. An interface-counter update touches the six interface gauges of
    its own interface and nothing else: every child with other label values
    is left as it was, and so are the two queue vectors. *)
Theorem counters_update_frame (sw : string) (c c' : GNMICollector) (path : Path)
    (value : option TypedValue) (iface : string) :
  isCountersPath iface path = true ->
  handleOneUpdate sw c (mkUpdate (Some path) value) = Ok c' ->
  (forall f k, k <> [sw; iface] -> stored c' f k = stored c f k) /\
  qosBufferUtil c' = qosBufferUtil c /\
  qosDroppedPackets c' = qosDroppedPackets c.
Proof.
  intros Hpath Hrun. rewrite handleOneUpdate_points in Hrun.
  assert (Hpts : exists pts,
            updatePoints sw (mkUpdate (Some path) value) = Ok pts /\
            forall p, p ∈ pts ->
              pt_labels p = [sw; iface] /\
              pt_field p <> F_qosBufferUtil /\ pt_field p <> F_qosDroppedPackets).
  { destruct (GetJsonIetfVal value) as [jsonVal |] eqn:Hval.
    - exists (countersPoints sw iface (parseCounters jsonVal)).
      split; [now apply updatePoints_counters |].
      intros p Hp. unfold countersPoints in Hp.
      repeat (apply elem_of_cons in Hp as [-> | Hp];
              [repeat split; discriminate |]).
      apply elem_of_nil in Hp. contradiction.
    - exists []. split; [now apply updatePoints_noJsonIetf |].
      intros p Hp. apply elem_of_nil in Hp. contradiction. }
  destruct Hpts as (pts & Hu & Hprop). rewrite Hu, Ok_bind in Hrun.
  apply writePoints_applyPoints in Hrun. subst c'.
  split; [| split].
  - intros f k Hk. rewrite stored_applyPoints_last, lastWrite_None; [reflexivity |].
    intros p Hp [_ Hl]. apply Hk. rewrite <- Hl. apply (Hprop p Hp).
  - apply (getGauge_applyPoints_other pts F_qosBufferUtil).
    intros p Hp. apply Hprop, Hp.
  - apply (getGauge_applyPoints_other pts F_qosDroppedPackets).
    intros p Hp. apply Hprop, Hp.
Qed.

(** ** The session *)

Lemma receiveLoop_error_from_Recv recv fuel : forall c i c' err,
  receiveLoop fuel c recv i = Some (Ok (c', Some err)) ->
  exists cause j, Unwrap err = Some cause /\ recv j = RecvError cause.
Proof.
  induction fuel as [| fuel IH]; intros c i c' err Hrun; simpl in Hrun;
    [discriminate |].
  destruct (recv i) as [response | cause] eqn:Hrecv.
  - destruct (handleUpdate c response) as [c1 | p]; [| discriminate].
    eapply IH, Hrun.
  - injection Hrun as _ <-. exists cause, i. split; [reflexivity | exact Hrecv].
Qed.

(** X11. Whatever error [Subscribe] returns wraps, one level down, an error
    that the transport gave: the dial, the subscribe call, the send, or some
    call of [Recv]. *)
Theorem subscribe_error_wraps_transport_error (fuel : nat) (c c' : GNMICollector)
    (s : Session) (err : error) :
  Subscribe fuel c s = Some (Ok (c', Some err)) ->
  exists cause,
    Unwrap err = Some cause /\
    (dialResult s = Some cause \/ subscribeResult s = Some cause \/
     sendResult s = Some cause \/ exists i, recv s i = RecvError cause).
Proof.
  unfold Subscribe, Connect. intros Hrun.
  destruct (dialResult s) as [cause |].
  { injection Hrun as _ <-. exists cause. split; [reflexivity | now left]. }
  destruct (subscribeResult s) as [cause |].
  { injection Hrun as _ <-. exists cause. split; [reflexivity | now right; left]. }
  destruct (sendResult s) as [cause |].
  { injection Hrun as _ <-. exists cause. split; [reflexivity | now right; right; left]. }
  destruct (receiveLoop_error_from_Recv _ _ _ _ _ _ Hrun) as (cause & j & Hu & Hj).
  exists cause. split; [exact Hu |]. right; right; right. now exists j.
Qed.

Lemma handleUpdate_hasPaths c response :
  wellFormed c -> responseHasPaths response = true ->
  exists c', handleUpdate c response = Ok c' /\ wellFormed c'.
Proof.
  intros Hwf Hp. destruct response as [n | b |]; simpl in *;
    [| exists c; now split | exists c; now split].
  destruct (forRange_handleOneUpdate_wellFormed (target c) _ c Hwf Hp)
    as (c' & Hrun & Hwf' & _).
  exists c'. now split.
Qed.

Lemma receiveLoop_healthy recv :
  (forall i, exists r, recv i = Received r /\ responseHasPaths r = true) ->
  forall fuel c i, wellFormed c -> receiveLoop fuel c recv i = None.
Proof.
  intros Hrecv. induction fuel as [| fuel IH]; intros c i Hwf; simpl; [reflexivity |].
  destruct (Hrecv i) as (r & -> & Hr).
  destruct (handleUpdate_hasPaths c r Hwf Hr) as (c' & -> & Hwf').
  apply IH, Hwf'.
Qed.

(** X12. While the stream delivers responses whose updates carry paths,
    [Subscribe] on a well-formed collector does not return: the loop has no
    exit but an error of [Recv] or a panic. *)
Theorem subscribe_runs_while_stream_delivers (c : GNMICollector) (s : Session) :
  wellFormed c ->
  dialResult s = None -> subscribeResult s = None -> sendResult s = None ->
  (forall i, exists r, recv s i = Received r /\ responseHasPaths r = true) ->
  forall fuel, Subscribe fuel c s = None.
Proof.
  intros Hwf Hd Hs Hsend Hrecv fuel. unfold Subscribe, Connect.
  rewrite Hd, Hs, Hsend. now apply receiveLoop_healthy.
Qed.

Lemma receiveLoop_until_panic recv r p rs : forall c c1 i fuel,
  (forall j r', rs !! j = Some r' -> recv (i + j)%nat = Received r') ->
  recv (i + length rs)%nat = Received r ->
  forRange handleUpdate c rs = Ok c1 ->
  handleUpdate c1 r = Panic p ->
  (length rs < fuel)%nat ->
  receiveLoop fuel c recv i = Some (Panic p).
Proof.
  induction rs as [| r0 rs IH]; intros c c1 i fuel Hrs Hr Hrun Hp Hfuel.
  - destruct fuel as [| fuel]; [simpl in Hfuel; lia |]. simpl.
    simpl in Hr. rewrite Nat.add_0_r in Hr. rewrite Hr.
    simpl in Hrun. injection Hrun as ->. now rewrite Hp.
  - destruct fuel as [| fuel]; [simpl in Hfuel; lia |]. simpl.
    pose proof (Hrs 0%nat r0 eq_refl) as H0. rewrite Nat.add_0_r in H0.
    rewrite H0. simpl in Hrun.
    destruct (handleUpdate c r0) as [c0 |]; simpl in Hrun; [| discriminate].
    apply (IH c0 c1).
    + intros j r' Hj. replace (S i + j)%nat with (i + S j)%nat by lia.
      apply Hrs. exact Hj.
    + replace (S i + length rs)%nat with (i + length (r0 :: rs))%nat
        by (simpl; lia). exact Hr.
    + exact Hrun.
    + exact Hp.
    + simpl in Hfuel. lia.
Qed.

(** X13. A panic of the handler ends the session: when the responses before
    it have been handled and the handler panics on the next one, [Subscribe]
    ends in that panic, with no error returned to the caller. *)
Theorem handler_panic_ends_session (c c1 : GNMICollector) (s : Session)
    (rs : list SubscribeResponse) (r : SubscribeResponse) (p : panic) (fuel : nat) :
  dialResult s = None -> subscribeResult s = None -> sendResult s = None ->
  (forall i r', rs !! i = Some r' -> recv s i = Received r') ->
  recv s (length rs) = Received r ->
  forRange handleUpdate c rs = Ok c1 ->
  handleUpdate c1 r = Panic p ->
  (length rs < fuel)%nat ->
  Subscribe fuel c s = Some (Panic p).
Proof.
  intros Hd Hs Hsend Hrs Hr Hrun Hp Hfuel. unfold Subscribe, Connect.
  rewrite Hd, Hs, Hsend.
  eapply receiveLoop_until_panic; eauto.
Qed.

End MoreProperties.

(** ** Start-up: registration and passwords *)

Lemma registerAll_fresh gs : forall registry,
  NoDup (gv_name <$> gs) ->
  (forall g, g ∈ gs -> gv_name g ∉ registry) ->
  registerAll registry gs = Up (list_to_set (gv_name <$> gs) ∪ registry).
Proof.
  induction gs as [| g gs IH]; intros registry Hnd Hfresh; simpl.
  - f_equal. now rewrite (left_id_L ∅ (∪)).
  - apply NoDup_cons in Hnd as [Hg Hnd]. unfold MustRegister.
    rewrite decide_False by (apply Hfresh; now left). simpl.
    rewrite IH; [f_equal | exact Hnd |].
    { rewrite (assoc_L (∪)). f_equal. apply (comm_L (∪)). }
    intros g' Hg' Hin. apply elem_of_union in Hin as [Hin | Hin].
    + apply elem_of_singleton in Hin. apply Hg. rewrite <- Hin.
      apply list_elem_of_fmap. now exists g'.
    + apply (Hfresh g'); [now right | exact Hin].
Qed.

Lemma registeredVectors_names t u p :
  gv_name <$> registeredVectors (NewGNMICollector t u p)
  = ["st2110_switch_interface_rx_bytes"; "st2110_switch_interface_tx_bytes";
     "st2110_switch_interface_rx_errors"; "st2110_switch_interface_tx_errors";
     "st2110_switch_interface_rx_drops"; "st2110_switch_interface_tx_drops";
     "st2110_switch_qos_buffer_utilization"; "st2110_switch_qos_dropped_packets";
     "st2110_switch_multicast_groups"].
Proof. reflexivity. Qed.

Lemma Up_bind {A B : Type} (a : A) (f : A -> Startup B) : (Up a ≫= f) = f a.
Proof. reflexivity. Qed.

Lemma MustRegister_taken registry g :
  gv_name g ∈ registry -> MustRegister registry g = AlreadyRegistered (gv_name g).
Proof. intros Hin. unfold MustRegister. now rewrite decide_True. Qed.

Lemma registering_taken registry t u p :
  "st2110_switch_interface_rx_bytes" ∈ registry ->
  NewGNMICollector_registering registry t u p
  = AlreadyRegistered "st2110_switch_interface_rx_bytes".
Proof.
  intros Hin. unfold NewGNMICollector_registering, registeredVectors.
  cbn [registerAll].
  rewrite (MustRegister_taken registry (interfaceRxBytes _)) by exact Hin.
  reflexivity.
Qed.

Lemma registering_fresh registry t u p :
  (forall g, g ∈ registeredVectors (NewGNMICollector t u p) -> gv_name g ∉ registry) ->
  NewGNMICollector_registering registry t u p
  = Up (NewGNMICollector t u p,
        list_to_set (gv_name <$> registeredVectors (NewGNMICollector t u p))
        ∪ registry).
Proof.
  intros Hfresh. unfold NewGNMICollector_registering.
  rewrite registerAll_fresh; [reflexivity | | exact Hfresh].
  rewrite registeredVectors_names. apply (bool_decide_unpack _). vm_compute. exact I.
Qed.

(** X14. The exporter cannot start with more than one switch: a collector
    registers its nine vectors under fixed names, so the first collector is
    made on the empty registry, any collector made on a registry that holds
    one of them panics in [MustRegister], and [main] with two or more
    switches panics at the second one, whatever the switches are. *)
Theorem second_collector_panics :
  (forall (getenv : string) (sw : SwitchConfig),
     exists registry,
       startFromConfig getenv [sw]
       = Up ([(NewGNMICollector (sw_Target sw) (sw_Username sw)
                 (if (sw_Password sw =? passwordPlaceholder)%string
                  then getenv else sw_Password sw),
               sw_Name sw)], registry)) /\
  (forall (registry : gset string) (t u p : string),
     "st2110_switch_interface_rx_bytes" ∈ registry ->
     NewGNMICollector_registering registry t u p
     = AlreadyRegistered "st2110_switch_interface_rx_bytes") /\
  (forall (getenv : string) (sw1 sw2 : SwitchConfig) (rest : list SwitchConfig),
     startFromConfig getenv (sw1 :: sw2 :: rest)
     = AlreadyRegistered "st2110_switch_interface_rx_bytes").
Proof.
  split; [| split].
  - intros getenv sw. unfold startFromConfig. simpl.
    set (sw' := if (sw_Password sw =? passwordPlaceholder)%string then _ else sw).
    assert (Hsw : sw_Target sw' = sw_Target sw /\ sw_Username sw' = sw_Username sw /\
                  sw_Name sw' = sw_Name sw /\
                  sw_Password sw'
                  = if (sw_Password sw =? passwordPlaceholder)%string
                    then getenv else sw_Password sw).
    { subst sw'. destruct (sw_Password sw =? passwordPlaceholder)%string;
        repeat split. }
    destruct Hsw as (-> & -> & -> & ->).
    rewrite registering_fresh by (intros g _; apply not_elem_of_empty).
    simpl. eexists. reflexivity.
  - apply registering_taken.
  - intros getenv sw1 sw2 rest. unfold startFromConfig, expandPasswords.
    cbn [map startCollectors].
    rewrite registering_fresh by (intros g _; apply not_elem_of_empty).
    rewrite Up_bind. rewrite registering_taken; [reflexivity |].
    cbn [snd]. apply elem_of_union_l. rewrite registeredVectors_names.
    apply elem_of_list_to_set. now left.
Qed.

(** X15. Expanding the passwords changes nothing but the password of the
    switches that carry the placeholder, which becomes the value of the
    environment variable; doing it twice is doing it once. *)
Theorem expandPasswords_only_placeholders (getenv : string)
    (switches : list SwitchConfig) :
  length (expandPasswords getenv switches) = length switches /\
  (forall i sw, switches !! i = Some sw ->
     exists sw',
       expandPasswords getenv switches !! i = Some sw' /\
       sw_Name sw' = sw_Name sw /\ sw_Target sw' = sw_Target sw /\
       sw_Username sw' = sw_Username sw /\ sw_Vendor sw' = sw_Vendor sw /\
       sw_Password sw'
       = if (sw_Password sw =? passwordPlaceholder)%string
         then getenv else sw_Password sw) /\
  expandPasswords getenv (expandPasswords getenv switches)
  = expandPasswords getenv switches.
Proof.
  unfold expandPasswords. split; [apply length_map | split].
  - intros i sw Hi. eexists. split.
    + change (map ?f switches) with (f <$> switches).
      rewrite list_lookup_fmap, Hi. reflexivity.
    + destruct (sw_Password sw =? passwordPlaceholder)%string; repeat split.
  - rewrite map_map. apply map_ext. intros sw.
    destruct (sw_Password sw =? passwordPlaceholder)%string eqn:Hp; simpl.
    + destruct (getenv =? passwordPlaceholder)%string; reflexivity.
    + now rewrite Hp.
Qed.

(** ** The Arista collector *)

Lemma Arista_handleOneUpdate_keeps st update st' :
  Arista.handleOneUpdate st update = Ok st' ->
  Arista.target st'.1 = Arista.target st.1 /\
  Arista.ptpLockStatus st'.1 = Arista.ptpLockStatus st.1 /\
  Arista.igmpGroups st'.1 = Arista.igmpGroups st.1 /\
  Arista.tcamUtilization st'.1 = Arista.tcamUtilization st.1 /\
  cv_name (Arista.hwQueueDrops st'.1) = cv_name (Arista.hwQueueDrops st.1) /\
  cv_labelNames (Arista.hwQueueDrops st'.1) = cv_labelNames (Arista.hwQueueDrops st.1) /\
  exists more, st'.2 = (st.2 ++ more)%list.
Proof.
  destruct st as [c out], update as [[path |] value]; [| discriminate].
  rewrite Arista_handleOneUpdate_positional.
  destruct (Arista.recognized path).
  - destruct (WithLabelValues_Add _ _ _) as [g |] eqn:Hadd; simpl; [| discriminate].
    intros [= <-]. simpl.
    unfold WithLabelValues_Add in Hadd.
    destruct (_ =? _)%nat; [| discriminate].
    destruct (PrimFloat.ltb _ _); [discriminate |]. injection Hadd as <-. simpl.
    repeat split. now eexists.
  - intros [= <-]. simpl. repeat split. exists []. now rewrite app_nil_r.
Qed.

(** X16. The Arista handler decodes nothing but queue drops: handling a
    response never changes the target, the PTP, IGMP and TCAM vectors, or
    the name and label names of the drop counter, and what it has printed
    stays printed. *)
Theorem arista_handler_keeps_other_vectors (st st' : Arista.State)
    (response : SubscribeResponse) :
  Arista.handleAristaUpdate st response = Ok st' ->
  Arista.target st'.1 = Arista.target st.1 /\
  Arista.ptpLockStatus st'.1 = Arista.ptpLockStatus st.1 /\
  Arista.igmpGroups st'.1 = Arista.igmpGroups st.1 /\
  Arista.tcamUtilization st'.1 = Arista.tcamUtilization st.1 /\
  cv_name (Arista.hwQueueDrops st'.1) = cv_name (Arista.hwQueueDrops st.1) /\
  cv_labelNames (Arista.hwQueueDrops st'.1) = cv_labelNames (Arista.hwQueueDrops st.1) /\
  exists more, st'.2 = (st.2 ++ more)%list.
Proof.
  destruct response as [n | b |]; simpl;
    [| intros [= <-]; repeat split; exists []; now rewrite app_nil_r
     | intros [= <-]; repeat split; exists []; now rewrite app_nil_r].
  revert st. induction (ntf_Update n) as [| u us IH]; intros st Hrun; simpl in Hrun.
  - injection Hrun as <-. repeat split. exists []. now rewrite app_nil_r.
  - destruct (Arista.handleOneUpdate st u) as [st1 |] eqn:Hu; simpl in Hrun;
      [| discriminate].
    apply Arista_handleOneUpdate_keeps in Hu
      as (Ht & Hp & Hi & Hc & Hn & Hl & more1 & Ho).
    destruct (IH _ Hrun) as (Ht' & Hp' & Hi' & Hc' & Hn' & Hl' & more2 & Ho').
    repeat split; try congruence.
    exists (more1 ++ more2)%list. rewrite Ho', Ho. now rewrite app_assoc.
Qed.

(** X17. An update on the collector's own declared queue-drop path is never
    taken: when the first nine element names of a path are the declared
    ones, the name at index 7 is "state", the handler's test fails and the
    state is left as it was. *)
Theorem declared_drop_path_is_not_taken :
  head Arista.subscribePaths = Some aristaDropsTemplate /\
  forall (c : Arista.AristaEOSCollector) (out : list Arista.DropWarning)
         (path : Path) (value : option TypedValue),
    followsNames aristaDropsTemplate path ->
    Arista.recognized path = false /\
    Arista.handleOneUpdate (c, out) (mkUpdate (Some path) value) = Ok (c, out).
Proof.
  split; [reflexivity |]. intros c out path value Hnames.
  assert (Hrec : Arista.recognized path = false).
  { unfold followsNames, namesOf in Hnames. unfold Arista.recognized.
    destruct (Elem path) as [| e0 [| e1 [| e2 [| e3 [| e4 [| e5 [| e6 [| e7 rest]]]]]]]];
      try discriminate.
    simpl in Hnames. injection Hnames as _ _ _ _ _ _ _ H7 _. simpl.
    rewrite H7. now rewrite andb_false_r. }
  split; [exact Hrec |]. now rewrite Arista_handleOneUpdate_positional, Hrec.
Qed.

Lemma aristaLabelled_handleOneUpdate t st update st' :
  aristaLabelled t st -> Arista.handleOneUpdate st update = Ok st' ->
  aristaLabelled t st'.
Proof.
  destruct st as [c out], update as [[path |] value]; [| discriminate].
  intros (Ht & Hn & Hk & Hw). simpl in Ht, Hn, Hk, Hw.
  rewrite Arista_handleOneUpdate_positional.
  destruct (Arista.recognized path); [| now intros [= <-]].
  destruct (WithLabelValues_Add _ _ _) as [g |] eqn:Hadd; simpl; [| discriminate].
  intros [= <-]. unfold WithLabelValues_Add in Hadd.
  destruct (_ =? _)%nat; [| discriminate].
  destruct (PrimFloat.ltb _ _); [discriminate |]. injection Hadd as <-.
  unfold aristaLabelled; simpl. repeat split; try assumption.
  - intros k v Hs.
    destruct (decide (Arista.labelsOf c path = k)) as [<- | Hne].
    + unfold Arista.labelsOf. rewrite Ht. now eexists _, _.
    + rewrite lookup_insert_ne in Hs by exact Hne. eapply Hk, Hs.
  - apply Forall_app. split; [exact Hw |]. unfold Arista.warningsOf.
    destruct (0 <? GetUintVal value) eqn:Hpos; [| constructor].
    constructor; [| constructor]. simpl. split; [exact Ht |].
    now apply Z.ltb_lt.
Qed.

Lemma aristaLabelled_handleAristaUpdate t st response st' :
  aristaLabelled t st -> Arista.handleAristaUpdate st response = Ok st' ->
  aristaLabelled t st'.
Proof.
  destruct response as [n | b |]; simpl; [| now intros ? [= <-] | now intros ? [= <-]].
  revert st. induction (ntf_Update n) as [| u us IH]; intros st Hst Hrun;
    simpl in Hrun.
  - now injection Hrun as <-.
  - destruct (Arista.handleOneUpdate st u) as [st1 |] eqn:Hu; simpl in Hrun;
      [| discriminate].
    eapply IH; [| exact Hrun]. eapply aristaLabelled_handleOneUpdate; eassumption.
Qed.

(** X18. In the Arista collector every child of the drop counter carries
    the collector's target as first label value, with an interface and a
    queue after it, and every warning printed names that target and a
    positive count: this holds after any run of responses from a new
    collector. *)
Theorem arista_children_carry_target (t u p : string)
    (rs : list SubscribeResponse) (st' : Arista.State) :
  forRange Arista.handleAristaUpdate (Arista.NewAristaEOSCollector t u p, []) rs
  = Ok st' ->
  (forall k v, cv_values (Arista.hwQueueDrops st'.1) !! k = Some v ->
     exists iface queue,
       labelSet (cv_labelNames (Arista.hwQueueDrops st'.1)) k
       = [("switch", t); ("interface", iface); ("queue", queue)]) /\
  Forall (fun w => Arista.w_target w = t /\ 0 < Arista.w_drops w) st'.2.
Proof.
  intros Hrun.
  assert (Hinv : aristaLabelled t st').
  { revert Hrun.
    assert (Hnew : aristaLabelled t (Arista.NewAristaEOSCollector t u p, [])).
    { repeat split; [| constructor]. intros k v Hs. simpl in Hs.
      rewrite lookup_empty in Hs. discriminate. }
    revert Hnew. generalize (Arista.NewAristaEOSCollector t u p, @nil Arista.DropWarning).
    induction rs as [| r rs IH]; intros st Hst Hrun; simpl in Hrun.
    - now injection Hrun as <-.
    - destruct (Arista.handleAristaUpdate st r) as [st1 |] eqn:Hr; simpl in Hrun;
        [| discriminate].
      eapply IH; [| exact Hrun]. eapply aristaLabelled_handleAristaUpdate; eassumption. }
  destruct Hinv as (_ & Hn & Hk & Hw). split; [| exact Hw].
  intros k v Hs. destruct (Hk k v Hs) as (iface & queue & ->).
  exists iface, queue. rewrite Hn. reflexivity.
Qed.

Lemma Arista_receiveLoop_never_nil recv fuel : forall st i,
  returnedNil (Arista.receiveLoop fuel st recv i) = false.
Proof.
  induction fuel as [| fuel IH]; intros st i; simpl; [reflexivity |].
  destruct (recv i) as [response | err]; [| reflexivity].
  destruct (Arista.handleAristaUpdate st response) as [st' | p];
    [apply IH | reflexivity].
Qed.

Lemma Arista_receiveLoop_until_error recv err rs : forall st i fuel,
  (forall j r, rs !! j = Some r -> recv (i + j)%nat = Received r) ->
  recv (i + length rs)%nat = RecvError err ->
  (length rs < fuel)%nat ->
  Arista.receiveLoop fuel st recv i
  = Some (st' ← forRange Arista.handleAristaUpdate st rs;
          Ok (st', Some (fmt_Errorf "stream error: " err))).
Proof.
  induction rs as [| r rs IH]; intros st i fuel Hrs Herr Hfuel.
  - destruct fuel as [| fuel]; [simpl in Hfuel; lia |]. simpl.
    simpl in Herr. rewrite Nat.add_0_r in Herr. now rewrite Herr.
  - destruct fuel as [| fuel]; [simpl in Hfuel; lia |]. simpl.
    pose proof (Hrs 0%nat r eq_refl) as H0. rewrite Nat.add_0_r in H0.
    rewrite H0.
    destruct (Arista.handleAristaUpdate st r) as [st' | p]; simpl; [| reflexivity].
    apply IH.
    + intros j r' Hj. replace (S i + j)%nat with (i + S j)%nat by lia.
      apply Hrs. exact Hj.
    + replace (S i + length rs)%nat with (i + length (r :: rs))%nat
        by (simpl; lia). exact Herr.
    + simpl in Hfuel. lia.
Qed.

(** X19. [SubscribeArista] never returns a nil error, and an error of
    [Recv] ends its loop and comes back wrapped as a stream error, the
    responses before it having been handled in order. *)
Theorem subscribeArista_returns_stream_error :
  (forall (fuel : nat) (st : Arista.State) (s : Session),
     returnedNil (Arista.SubscribeArista fuel st s) = false) /\
  (forall (st : Arista.State) (s : Session) (rs : list SubscribeResponse)
          (err : error) (fuel : nat),
     subscribeResult s = None -> sendResult s = None ->
     (forall i r, rs !! i = Some r -> recv s i = Received r) ->
     recv s (length rs) = RecvError err ->
     (length rs < fuel)%nat ->
     Arista.SubscribeArista fuel st s
     = Some (st' ← forRange Arista.handleAristaUpdate st rs;
             Ok (st', Some (fmt_Errorf "stream error: " err)))).
Proof.
  split.
  - intros fuel st s. unfold Arista.SubscribeArista.
    destruct (subscribeResult s); [reflexivity |].
    destruct (sendResult s); [reflexivity |].
    apply Arista_receiveLoop_never_nil.
  - intros st s rs err fuel Hsub Hsend Hrs Herr Hfuel.
    unfold Arista.SubscribeArista. rewrite Hsub, Hsend.
    apply Arista_receiveLoop_until_error; [| exact Herr | exact Hfuel].
    intros j r Hj. simpl. apply Hrs, Hj.
Qed.

(** ** The Evertz exporter *)

Lemma WithLabelValues_Set_ok g lvs v :
  length lvs = length (gv_labelNames g) ->
  WithLabelValues_Set g lvs v = Ok (setChild g lvs v).
Proof.
  intros Hlen. unfold WithLabelValues_Set.
  now rewrite (proj2 (Nat.eqb_eq _ _) Hlen).
Qed.

Lemma moduleStatusCallback_int e pdu n :
  moduleStatusDeclared e -> Evertz.pdu_Value pdu = Evertz.SnmpInt n ->
  Evertz.moduleStatusCallback e pdu
  = Ok (Evertz.putModuleStatus e
          (setChild (Evertz.moduleStatus e) ["1"; "5"; "unknown"] (float64_of_int n))).
Proof.
  unfold moduleStatusDeclared, Evertz.moduleStatusCallback. intros Hd Hv.
  simpl. rewrite Hv. simpl.
  rewrite WithLabelValues_Set_ok by (now rewrite Hd). reflexivity.
Qed.

Lemma forRange_moduleStatus_ints pdus : forall e,
  moduleStatusDeclared e -> allInts pdus = true ->
  exists e', forRange Evertz.moduleStatusCallback e pdus = Ok e' /\
             moduleStatusDeclared e' /\
             (pdus = [] -> e' = e) /\
             Evertz.ipFlowStatus e' = Evertz.ipFlowStatus e.
Proof.
  induction pdus as [| pdu pdus IH]; intros e Hd Hall; simpl.
  - exists e. repeat split; assumption.
  - simpl in Hall. apply andb_prop in Hall as [Hp Hall].
    destruct (Evertz.pdu_Value pdu) as [n | | | |] eqn:Hv; try discriminate.
    rewrite (moduleStatusCallback_int e pdu n Hd Hv). simpl.
    destruct (IH (Evertz.putModuleStatus e
                    (setChild (Evertz.moduleStatus e) ["1"; "5"; "unknown"]
                       (float64_of_int n)))) as (e' & Hrun & Hd' & _ & Hflow);
      [exact Hd | exact Hall |].
    exists e'. repeat split; [exact Hrun | exact Hd' | discriminate | exact Hflow].
Qed.

(** X20. A PDU whose value is not an [int] makes the walk callback panic on
    its type assertion: [collectSNMP] ends in that panic when such a PDU
    follows PDUs with [int] values, whatever comes after it. *)
Theorem non_int_pdu_panics (e : Evertz.EvertzEQXExporter)
    (before after : list Evertz.SnmpPDU) (pdu : Evertz.SnmpPDU)
    (walkErr : option error) :
  moduleStatusDeclared e ->
  allInts before = true ->
  allInts [pdu] = false ->
  Evertz.collectSNMP e (Evertz.mkWalk (before ++ pdu :: after) walkErr)
  = Panic TypeAssertion.
Proof.
  intros Hd Hbefore Hpdu. unfold Evertz.collectSNMP. simpl.
  rewrite forRange_app.
  destruct (forRange_moduleStatus_ints before e Hd Hbefore) as (e1 & -> & _).
  rewrite Ok_bind. simpl. unfold Evertz.moduleStatusCallback. simpl.
  simpl in Hpdu. destruct (Evertz.pdu_Value pdu); [discriminate | | | |]; reflexivity.
Qed.

Lemma insert_only_key (m : gmap (list string) float) (key : list string) (v : float) :
  (forall k w, m !! k = Some w -> k = key) -> <[key := v]> m = {[ key := v ]}.
Proof.
  intros Honly. apply map_eq. intros k.
  destruct (decide (key = k)) as [<- | Hne].
  - now rewrite lookup_insert_eq, lookup_singleton_eq.
  - rewrite lookup_insert_ne, lookup_singleton_ne by exact Hne.
    destruct (m !! k) as [w |] eqn:Hk; [| reflexivity].
    exfalso. apply Hne. symmetry. eapply Honly, Hk.
Qed.

(** X21. One walk leaves one child: when every PDU carries an [int], the
    module-status vector of a new exporter ends with the single child
    chassis "1", slot "5", module type "unknown", holding the status of the
    last PDU delivered; the statuses of the PDUs before it are overwritten. *)
Theorem last_pdu_wins (t community : string) (pdus : list Evertz.SnmpPDU)
    (pdu : Evertz.SnmpPDU) (n : Z) (walkErr : option error) :
  allInts pdus = true ->
  Evertz.pdu_Value pdu = Evertz.SnmpInt n ->
  exists e',
    Evertz.collectSNMP (Evertz.NewEvertzEQXExporter t community)
      (Evertz.mkWalk (pdus ++ [pdu]) walkErr) = Ok (e', walkErr) /\
    gv_values (Evertz.moduleStatus e')
    = {[ ["1"; "5"; "unknown"] := float64_of_int n ]}.
Proof.
  intros Hall Hv. unfold Evertz.collectSNMP. simpl. rewrite forRange_app.
  destruct (forRange_moduleStatus_ints pdus (Evertz.NewEvertzEQXExporter t community)
              eq_refl Hall) as (e1 & Hrun & Hd & _).
  rewrite Hrun, Ok_bind. simpl.
  rewrite (moduleStatusCallback_int e1 pdu n Hd Hv). simpl.
  eexists. split; [reflexivity |]. simpl.
  apply insert_only_key.
  exact (proj2 (constantLabels_walk pdus _ e1 (constantLabels_New t community) Hrun)).
Qed.

(** X22. The length test of [parseEvertzOID] is one short of the indices it
    guards: with fewer than 14 parts the fallback pair is returned, and with
    exactly 14 parts the read of part 14 is out of range. *)
Theorem chassisSlot_bounds (parts : list string) :
  ((length parts < 14)%nat -> Evertz.chassisSlot parts = Ok ("1", "5")) /\
  (length parts = 14%nat ->
   Evertz.chassisSlot parts = Panic (IndexOutOfRange 14 14)).
Proof.
  unfold Evertz.chassisSlot. split; intros Hlen.
  - now rewrite (proj2 (Nat.leb_gt _ _) Hlen).
  - rewrite Hlen. simpl.
    destruct (index_lt parts 13) as (x & _ & ->); [lia |]. simpl.
    unfold index. rewrite lookup_ge_None_2 by lia. now rewrite Hlen.
Qed.

Lemma recordFlow_ok chassis e flow :
  ipFlowStatusDeclared e ->
  Evertz.recordFlow chassis e flow
  = Ok (Evertz.putIpFlowStatus e
          (setChild (Evertz.ipFlowStatus e)
             [chassis; Evertz.ID flow; Evertz.Direction flow]
             (Evertz.boolToFloat (Evertz.Active flow)))).
Proof.
  intros Hd. unfold Evertz.recordFlow.
  rewrite WithLabelValues_Set_ok by (now rewrite Hd). reflexivity.
Qed.

Lemma forRange_recordFlow chassis flows : forall e,
  ipFlowStatusDeclared e ->
  exists e',
    forRange (Evertz.recordFlow chassis) e flows = Ok e' /\
    ipFlowStatusDeclared e' /\
    (forall flow, flow ∈ flows ->
       exists b, gv_values (Evertz.ipFlowStatus e')
                   !! [chassis; Evertz.ID flow; Evertz.Direction flow]
                 = Some (Evertz.boolToFloat b)) /\
    (forall k b, gv_values (Evertz.ipFlowStatus e) !! k = Some (Evertz.boolToFloat b) ->
       exists b', gv_values (Evertz.ipFlowStatus e') !! k
                  = Some (Evertz.boolToFloat b')) /\
    (forall k, is_Some (gv_values (Evertz.ipFlowStatus e) !! k) ->
       is_Some (gv_values (Evertz.ipFlowStatus e') !! k)) /\
    (forall k,
       (forall flow, flow ∈ flows ->
          k <> [chassis; Evertz.ID flow; Evertz.Direction flow]) ->
       gv_values (Evertz.ipFlowStatus e') !! k
       = gv_values (Evertz.ipFlowStatus e) !! k) /\
    Evertz.moduleStatus e' = Evertz.moduleStatus e.
Proof.
  induction flows as [| flow flows IH]; intros e Hd.
  - simpl. exists e. split; [reflexivity |]. split; [exact Hd |].
    split; [intros f Hf; apply elem_of_nil in Hf; contradiction |].
    split; [intros k b Hk; now exists b |]. repeat split; auto.
  - cbn [forRange]. rewrite (recordFlow_ok chassis e flow Hd), !Ok_bind.
    set (key := [chassis; Evertz.ID flow; Evertz.Direction flow]).
    set (e1 := Evertz.putIpFlowStatus e _).
    assert (Hd1 : ipFlowStatusDeclared e1) by exact Hd.
    assert (Hkey : gv_values (Evertz.ipFlowStatus e1) !! key
                   = Some (Evertz.boolToFloat (Evertz.Active flow))).
    { subst e1. simpl. apply lookup_insert_eq. }
    assert (Hother : forall k, k <> key ->
              gv_values (Evertz.ipFlowStatus e1) !! k
              = gv_values (Evertz.ipFlowStatus e) !! k).
    { intros k Hk. subst e1. simpl. now apply lookup_insert_ne. }
    destruct (IH e1 Hd1) as (e' & Hrun & Hd' & Hflows & Hbool & Hsome & Hframe & Hmod).
    exists e'. split; [exact Hrun |]. split; [exact Hd' |].
    split; [| split; [| split; [| split]]].
    + intros f Hf. apply elem_of_cons in Hf as [-> | Hf].
      * eapply Hbool, Hkey.
      * apply Hflows, Hf.
    + intros k b Hk. destruct (decide (k = key)) as [-> | Hne].
      * eapply Hbool, Hkey.
      * eapply Hbool. rewrite Hother by exact Hne. exact Hk.
    + intros k Hk. apply Hsome. destruct (decide (k = key)) as [-> | Hne].
      * rewrite Hkey. now eexists.
      * now rewrite Hother.
    + intros k Hk. rewrite Hframe by (intros f Hf; apply Hk; now right).
      apply Hother. apply Hk. now left.
    + exact Hmod.
Qed.

(** X23. [collectHTTPAPI] on a decoded status records every flow under the
    chassis of the status, the flow id and the direction, with value 1 or
    0; it removes no child, leaves the children of other label values as
    they were, and does not touch the module statuses. *)
Theorem flows_recorded (e : Evertz.EvertzEQXExporter) (status : Evertz.EvertzStatus) :
  ipFlowStatusDeclared e ->
  exists e',
    Evertz.collectHTTPAPI e (Evertz.Decoded status) = Ok (e', None) /\
    (forall flow, flow ∈ Evertz.IPFlows status ->
       gv_values (Evertz.ipFlowStatus e')
         !! [Evertz.Chassis status; Evertz.ID flow; Evertz.Direction flow]
       = Some 1%float \/
       gv_values (Evertz.ipFlowStatus e')
         !! [Evertz.Chassis status; Evertz.ID flow; Evertz.Direction flow]
       = Some 0%float) /\
    (forall k, is_Some (gv_values (Evertz.ipFlowStatus e) !! k) ->
       is_Some (gv_values (Evertz.ipFlowStatus e') !! k)) /\
    (forall k,
       (forall flow, flow ∈ Evertz.IPFlows status ->
          k <> [Evertz.Chassis status; Evertz.ID flow; Evertz.Direction flow]) ->
       gv_values (Evertz.ipFlowStatus e') !! k
       = gv_values (Evertz.ipFlowStatus e) !! k) /\
    Evertz.moduleStatus e' = Evertz.moduleStatus e.
Proof.
  intros Hd. unfold Evertz.collectHTTPAPI.
  destruct (forRange_recordFlow (Evertz.Chassis status) (Evertz.IPFlows status) e Hd)
    as (e' & -> & _ & Hflows & _ & Hsome & Hframe & Hmod).
  exists e'. split; [reflexivity |]. split; [| repeat split; assumption].
  intros flow Hf. destruct (Hflows flow Hf) as [[] ->]; [now left | now right].
Qed.

Lemma forRange_moduleStatus_keeps pdus : forall e e',
  forRange Evertz.moduleStatusCallback e pdus = Ok e' ->
  Evertz.target e' = Evertz.target e /\ Evertz.community e' = Evertz.community e /\
  Evertz.ipFlowStatus e' = Evertz.ipFlowStatus e /\
  Evertz.videoStreamStatus e' = Evertz.videoStreamStatus e /\
  Evertz.ptpStatus e' = Evertz.ptpStatus e /\
  Evertz.redundancyStatus e' = Evertz.redundancyStatus e.
Proof.
  induction pdus as [| pdu pdus IH]; intros e e' Hrun; simpl in Hrun.
  - injection Hrun as <-. repeat split.
  - destruct (Evertz.moduleStatusCallback e pdu) as [e1 |] eqn:Hcb; simpl in Hrun;
      [| discriminate].
    destruct (IH _ _ Hrun) as (-> & -> & -> & -> & -> & ->).
    unfold Evertz.moduleStatusCallback in Hcb. simpl in Hcb.
    destruct (Evertz.pdu_Value pdu); simpl in Hcb; try discriminate.
    destruct (WithLabelValues_Set _ _ _); simpl in Hcb; [| discriminate].
    injection Hcb as <-. repeat split.
Qed.

Lemma forRange_recordFlow_keeps chassis flows : forall e e',
  forRange (Evertz.recordFlow chassis) e flows = Ok e' ->
  Evertz.target e' = Evertz.target e /\ Evertz.community e' = Evertz.community e /\
  Evertz.videoStreamStatus e' = Evertz.videoStreamStatus e /\
  Evertz.ptpStatus e' = Evertz.ptpStatus e /\
  Evertz.redundancyStatus e' = Evertz.redundancyStatus e.
Proof.
  induction flows as [| flow flows IH]; intros e e' Hrun; simpl in Hrun.
  - injection Hrun as <-. repeat split.
  - destruct (Evertz.recordFlow chassis e flow) as [e1 |] eqn:Hf; simpl in Hrun;
      [| discriminate].
    destruct (IH _ _ Hrun) as (-> & -> & -> & -> & ->).
    unfold Evertz.recordFlow in Hf.
    destruct (WithLabelValues_Set _ _ _); simpl in Hf; [| discriminate].
    injection Hf as <-. repeat split.
Qed.

(** X24. [Collect] returns nil only when the SNMP connection, the walk and
    the HTTP status all succeeded; when the walk ends in an error, that
    error is returned and the flow statuses are not refreshed; and no call
    touches the target, the community, or the video-stream, PTP and
    redundancy vectors. *)
Theorem collect_steps (e e' : Evertz.EvertzEQXExporter) (dev : Evertz.Device)
    (err : option error) :
  Evertz.Collect e dev = Ok (e', err) ->
  (err = None ->
   Evertz.snmpConnect dev = None /\ Evertz.walkError (Evertz.snmpWalk dev) = None /\
   exists status, Evertz.httpStatus dev = Evertz.Decoded status) /\
  (forall werr, Evertz.snmpConnect dev = None ->
     Evertz.walkError (Evertz.snmpWalk dev) = Some werr ->
     err = Some werr /\ Evertz.ipFlowStatus e' = Evertz.ipFlowStatus e) /\
  Evertz.target e' = Evertz.target e /\ Evertz.community e' = Evertz.community e /\
  Evertz.videoStreamStatus e' = Evertz.videoStreamStatus e /\
  Evertz.ptpStatus e' = Evertz.ptpStatus e /\
  Evertz.redundancyStatus e' = Evertz.redundancyStatus e.
Proof.
  unfold Evertz.Collect. intros Hrun.
  destruct (Evertz.snmpConnect dev) as [cerr |].
  { injection Hrun as <- <-. repeat split; discriminate. }
  unfold Evertz.collectSNMP in Hrun.
  destruct (forRange Evertz.moduleStatusCallback e _) as [e1 |] eqn:Hwalk;
    simpl in Hrun; [| discriminate].
  destruct (forRange_moduleStatus_keeps _ _ _ Hwalk) as (Ht & Hc & Hf & Hv & Hp & Hr).
  destruct (Evertz.walkError (Evertz.snmpWalk dev)) as [werr |].
  { injection Hrun as <- <-. split; [discriminate |].
    split; [intros w _ [= <-]; now split |]. repeat split; assumption. }
  unfold Evertz.collectHTTPAPI in Hrun.
  destruct (Evertz.httpStatus dev) as [gerr | derr | status]; simpl in Hrun.
  - injection Hrun as <- <-. split; [discriminate |].
    split; [discriminate |]. repeat split; assumption.
  - injection Hrun as <- <-. split; [discriminate |].
    split; [discriminate |]. repeat split; assumption.
  - destruct (forRange (Evertz.recordFlow _) e1 _) as [e2 |] eqn:Hflows;
      simpl in Hrun; [| discriminate].
    injection Hrun as <- <-.
    destruct (forRange_recordFlow_keeps _ _ _ _ Hflows) as (Ht2 & Hc2 & Hv2 & Hp2 & Hr2).
    split; [intros _; repeat split; now exists status |].
    split; [discriminate |]. repeat split; congruence.
Qed.

(** * Closed instances

    The statements above at the example inputs, on [examplePlatform]. *)

#[local] Existing Instance examplePlatform.

Example flatUnmarshal_object1 :
  flatUnmarshal (object1 "in-octets" "1000000")
  = Some {[ "in-octets" := JNumber 1000000%float ]}.
Proof. vm_compute. reflexivity. Qed.

Example flatUnmarshal_rejects : flatUnmarshal (list_byte_of_string "[1]") = None.
Proof. reflexivity. Qed.

Lemma scenarioA_received_octets_witness :
  exists c',
    handleUpdate exampleCollector scenarioA_response = Ok c' /\
    stored c' F_interfaceRxBytes [target exampleCollector; "eth0"]
    = Some 1000000%float /\
    schema (interfaceRxBytes c')
    = ("st2110_switch_interface_rx_bytes", ["switch"; "interface"]) /\
    labelSet (gv_labelNames (interfaceRxBytes c')) [target exampleCollector; "eth0"]
    = [("switch", target exampleCollector); ("interface", "eth0")].
Proof.
  apply (scenarioA_received_octets exampleCollector "" 0 scenarioA_json
           {[ "in-octets" := JNumber 1000000%float ]}).
  - apply wellFormed_New.
  - vm_compute. reflexivity.
  - vm_compute. reflexivity.
Defined.

Lemma decode_deterministic_stateless_witness :
  handleUpdate exampleCollector scenarioA_response
  = (responsePoints (target exampleCollector) scenarioA_response
     ≫= fun pts => Ok (applyPoints exampleCollector pts)).
Proof.
  apply (proj2 decode_deterministic_stateless exampleCollector scenarioA_response).
  apply wellFormed_New.
Defined.



(** A cancelled context: [Recv] gives a [Canceled] status, and [Subscribe]
    returns it wrapped, not nil. *)
Example cancellation_is_returned_as_error :
  Subscribe 2 exampleCollector cancelledSession
  = Some (Ok (gnmiAfterA,
              Some (fmt_Errorf "stream error: "
                      (status_Error Canceled "context canceled")))) /\
  isCanceled (fmt_Errorf "stream error: " (status_Error Canceled "context canceled"))
  = true.
Proof. split; vm_compute; reflexivity. Qed.

Lemma subscribe_returns_stream_error_witness :
  Subscribe 2 exampleCollector cancelledSession
  = Some (c' ← forRange handleUpdate exampleCollector [scenarioA_response];
          Ok (c', Some (fmt_Errorf "stream error: "
                          (status_Error Canceled "context canceled")))).
Proof.
  apply (proj2 subscribe_returns_stream_error exampleCollector cancelledSession
           [scenarioA_response]); try reflexivity.
  - intros [| i] r Hr; simpl in Hr; [| discriminate].
    injection Hr as <-. reflexivity.
  - simpl. lia.
Defined.

(** C4, as stated, fails: when the first session of a target breaks, the
    goroutine reports the stream error and ends after that one connection,
    although every later connection would have stayed up. *)
Lemma goroutine_does_not_retry :
  collectorGoroutine 10 exampleCollector "sw1" flakyNetwork
  = Some (Ok (mkGoroutineEnd exampleCollector 1
                (Some ("sw1",
                       fmt_Errorf "stream error: "
                         (status_Error Unavailable "transport is closing"))))) /\
  returnedNil (Subscribe 10 exampleCollector (flakyNetwork 1%nat)) = false /\
  Subscribe 10 exampleCollector (flakyNetwork 1%nat) = None.
Proof. repeat split; vm_compute; reflexivity. Qed.

Lemma goroutine_runs_one_session_witness :
  collectorGoroutine 10 exampleCollector "sw1" flakyNetwork
  = collectorGoroutine 10 exampleCollector "sw1" (fun _ => brokenSession) /\
  collectorGoroutine 10 exampleCollector "sw1" flakyNetwork
  = Some (Ok (mkGoroutineEnd exampleCollector 1
                (Some ("sw1",
                       fmt_Errorf "stream error: "
                         (status_Error Unavailable "transport is closing"))))).
Proof.
  split.
  - apply (proj1 goroutine_runs_one_session). reflexivity.
  - apply (proj2 goroutine_runs_one_session). reflexivity.
Defined.

(** C5, as stated, fails: on a path that matches no declared template the
    handler completes normally, with the collector unchanged; no error is
    returned, and none can be, the handler having no result.  Nor does
    matching no template keep the store unchanged: a path of seven elements
    that begins with "qos" is written whatever its other elements. *)
Lemma unrecognized_path_no_error :
  (matchesSomeTemplate subscribePaths cpuPath = false /\
   handleUpdate exampleCollector (notify [cpuUpdate]) = Ok exampleCollector) /\
  (matchesSomeTemplate subscribePaths looseQosPath = false /\
   exists c',
     handleUpdate exampleCollector (notify [looseQosUpdate]) = Ok c' /\
     stored exampleCollector F_qosDroppedPackets ["sw1.example.net:6030"; ""; ""]
     = None /\
     stored c' F_qosDroppedPackets ["sw1.example.net:6030"; ""; ""]
     = Some 4%float).
Proof.
  split; [split; vm_compute; reflexivity |].
  split; [vm_compute; reflexivity |].
  eexists. repeat split; vm_compute; reflexivity.
Qed.

Lemma unhandled_update_skipped_witness :
  handleUpdate exampleCollector
    (SubscribeResponse_Update (mkNotification 0 [cpuUpdate])) = Ok exampleCollector /\
  forall (fuel : nat) (recv : nat -> RecvResult) (i : nat),
    recv i = Received (SubscribeResponse_Update (mkNotification 0 [cpuUpdate])) ->
    receiveLoop (S fuel) exampleCollector recv i
    = receiveLoop fuel exampleCollector recv (S i).
Proof.
  apply (unhandled_update_skipped exampleCollector 0 [cpuUpdate]). reflexivity.
Defined.



(** C8, as stated, fails on the Evertz exporter: the child written for the
    module in chassis 2, slot 9 of target 10.0.0.7 has the label set
    chassis "1", slot "5", module type "unknown", without the target; an
    exporter for another target writes the same identity. *)
Lemma evertz_points_lack_target :
  Evertz.collectSNMP evertzExporter evertzWalk = Ok (evertzAfterWalk, None) /\
  gv_values (Evertz.moduleStatus evertzAfterWalk) !! ["1"; "5"; "unknown"]
  = Some 1%float /\
  labelSet (gv_labelNames (Evertz.moduleStatus evertzAfterWalk)) ["1"; "5"; "unknown"]
  = [("chassis", "1"); ("slot", "5"); ("module_type", "unknown")] /\
  (Evertz.target evertzAfterWalk ∉ ["1"; "5"; "unknown"]) /\
  (exists e' : Evertz.EvertzEQXExporter,
     Evertz.collectSNMP (Evertz.NewEvertzEQXExporter "10.0.0.8" "public") evertzWalk
     = Ok (e', None) /\
     Evertz.moduleStatus e' = Evertz.moduleStatus evertzAfterWalk).
Proof.
  split; [vm_compute; reflexivity |]. split; [vm_compute; reflexivity |].
  split; [reflexivity |]. split.
  - intros Hin. repeat (apply elem_of_cons in Hin as [Hin | Hin]; [discriminate |]).
    apply elem_of_nil in Hin. exact Hin.
  - eexists. split; vm_compute; reflexivity.
Qed.

Lemma target_label_by_collector_witness :
  head (labelSet (gv_labelNames (getGauge gnmiAfterA F_interfaceRxBytes))
          ["sw1.example.net:6030"; "eth0"])
  = Some ("switch", "sw1.example.net:6030") /\
  labelSet (gv_labelNames (Evertz.moduleStatus evertzAfterWalk)) ["1"; "5"; "unknown"]
  = [("chassis", "1"); ("slot", "5"); ("module_type", "unknown")].
Proof.
  split.
  - apply (proj1 target_label_by_collector "sw1.example.net:6030" "admin" "secret"
             [scenarioA_response] gnmiAfterA) with (v := 1000000%float).
    + vm_compute. reflexivity.
    + vm_compute. reflexivity.
  - apply (proj2 target_label_by_collector "10.0.0.7" "public" evertzWalk
             evertzAfterWalk None) with (v := 1%float).
    + vm_compute. reflexivity.
    + vm_compute. reflexivity.
Defined.

(** ** The further properties at the example inputs *)

Lemma handleUpdate_preserves_witness :
  target gnmiAfterA = target exampleCollector /\
  username gnmiAfterA = username exampleCollector /\
  password gnmiAfterA = password exampleCollector /\
  (forall f, schema (getGauge gnmiAfterA f) = schema (getGauge exampleCollector f)) /\
  multicastGroups gnmiAfterA = multicastGroups exampleCollector.
Proof.
  apply (handleUpdate_preserves exampleCollector gnmiAfterA scenarioA_response).
  vm_compute. reflexivity.
Defined.

Lemma handleUpdate_idempotent_witness :
  handleUpdate gnmiAfterA scenarioA_response = Ok gnmiAfterA.
Proof.
  apply (handleUpdate_idempotent exampleCollector gnmiAfterA scenarioA_response).
  - apply wellFormed_New.
  - vm_compute. reflexivity.
Defined.

Lemma non_ietf_values_ignored_witness :
  handleUpdate exampleCollector
    (SubscribeResponse_Update (mkNotification 0 [scalarUpdate]))
  = Ok exampleCollector.
Proof.
  apply (non_ietf_values_ignored exampleCollector 0 [scalarUpdate]). reflexivity.
Defined.

Lemma nil_path_panics_witness :
  handleUpdate exampleCollector
    (SubscribeResponse_Update
       (mkNotification 0 ([countersUpdate "eth0" scenarioA_json]
                          ++ pathlessUpdate :: [cpuUpdate])))
  = Panic NilDereference.
Proof.
  apply (nil_path_panics exampleCollector 0 [countersUpdate "eth0" scenarioA_json]
           [cpuUpdate] pathlessUpdate).
  - apply wellFormed_New.
  - reflexivity.
  - reflexivity.
Defined.


Lemma undecodable_payload_writes_zero_witness :
  exists c',
    handleOneUpdate "sw1" gnmiAfterA garbledUpdate = Ok c' /\
    stored c' F_interfaceRxBytes ["sw1"; "eth0"] = Some 0%float /\
    stored c' F_interfaceTxBytes ["sw1"; "eth0"] = Some 0%float.
Proof.
  apply (undecodable_payload_writes_zero "sw1" gnmiAfterA eth0CountersPath _ "eth0"
           (list_byte_of_string "oops")).
  - apply wellFormed_applyPoints, wellFormed_New.
  - vm_compute. reflexivity.
  - reflexivity.
  - vm_compute. exact I.
Defined.

Lemma declared_paths_are_handled_witness : handles eth0CountersPath = true.
Proof.
  apply (declared_paths_are_handled
           (mkPath "" [elem "interfaces"; keyed "interface" "name" "*";
                       elem "state"; elem "counters"])).
  - now left.
  - reflexivity.
Defined.

Lemma qos_update_stored_witness :
  exists c',
    handleOneUpdate "sw1" exampleCollector
      (mkUpdate (Some queuePath) (Some (JsonIetfVal queueJson))) = Ok c' /\
    stored c' F_qosBufferUtil ["sw1"; "eth0"; "q3"]
    = Some (BufferUtilization (parseQoSStats queueJson)) /\
    stored c' F_qosDroppedPackets ["sw1"; "eth0"; "q3"]
    = Some (float64_of_int (DroppedPackets (parseQoSStats queueJson))) /\
    (forall data u,
       json_Unmarshal queueJson = Some data ->
       data !! "buffer-utilization" = Some (JNumber u) ->
       stored c' F_qosBufferUtil ["sw1"; "eth0"; "q3"] = Some u) /\
    (forall f k, k <> ["sw1"; "eth0"; "q3"] ->
       stored c' f k = stored exampleCollector f k).
Proof.
  apply (qos_update_stored "sw1" exampleCollector queuePath _ "eth0" "q3" queueJson).
  - apply wellFormed_New.
  - vm_compute. reflexivity.
  - reflexivity.
Defined.

Lemma counters_update_frame_witness :
  (forall f k, k <> ["sw1.example.net:6030"; "eth0"] ->
     stored gnmiAfterA f k = stored exampleCollector f k) /\
  qosBufferUtil gnmiAfterA = qosBufferUtil exampleCollector /\
  qosDroppedPackets gnmiAfterA = qosDroppedPackets exampleCollector.
Proof.
  apply (counters_update_frame "sw1.example.net:6030" exampleCollector gnmiAfterA
           eth0CountersPath (Some (JsonIetfVal scenarioA_json)) "eth0").
  - vm_compute. reflexivity.
  - vm_compute. reflexivity.
Defined.

Lemma subscribe_error_wraps_transport_error_witness :
  exists cause,
    Unwrap (fmt_Errorf "stream error: " (status_Error Canceled "context canceled"))
    = Some cause /\
    (dialResult cancelledSession = Some cause \/
     subscribeResult cancelledSession = Some cause \/
     sendResult cancelledSession = Some cause \/
     exists i, recv cancelledSession i = RecvError cause).
Proof.
  apply (subscribe_error_wraps_transport_error 2 exampleCollector gnmiAfterA
           cancelledSession).
  vm_compute. reflexivity.
Defined.

Lemma subscribe_runs_while_stream_delivers_witness :
  Subscribe 1000 exampleCollector healthySession = None.
Proof.
  apply (subscribe_runs_while_stream_delivers exampleCollector healthySession);
    try reflexivity.
  - apply wellFormed_New.
  - intros i. exists (SubscribeResponse_SyncResponse true). now split.
Defined.

Lemma handler_panic_ends_session_witness :
  Subscribe 5 exampleCollector pathlessSession = Some (Panic NilDereference).
Proof.
  apply (handler_panic_ends_session exampleCollector gnmiAfterA pathlessSession
           [scenarioA_response] (notify [pathlessUpdate]) NilDereference 5).
  - reflexivity.
  - reflexivity.
  - reflexivity.
  - intros [| i] r Hr; simpl in Hr; [| discriminate].
    injection Hr as <-. reflexivity.
  - reflexivity.
  - vm_compute. reflexivity.
  - vm_compute. reflexivity.
  - simpl. lia.
Defined.

Lemma second_collector_panics_witness :
  NewGNMICollector_registering {[ "st2110_switch_interface_rx_bytes" ]}
    "10.0.0.2:6030" "admin" "fixed"
  = AlreadyRegistered "st2110_switch_interface_rx_bytes" /\
  startFromConfig "s3cret" twoSwitches
  = AlreadyRegistered "st2110_switch_interface_rx_bytes".
Proof.
  split.
  - apply (proj1 (proj2 second_collector_panics)). now apply elem_of_singleton.
  - apply (proj2 (proj2 second_collector_panics)).
Defined.

Lemma expandPasswords_only_placeholders_witness :
  exists sw',
    expandPasswords "s3cret" twoSwitches !! 0%nat = Some sw' /\
    sw_Name sw' = "core-1" /\ sw_Target sw' = "10.0.0.1:6030" /\
    sw_Username sw' = "admin" /\ sw_Vendor sw' = "arista" /\
    sw_Password sw' = "s3cret".
Proof.
  apply (proj1 (proj2 (expandPasswords_only_placeholders "s3cret" twoSwitches))
           0%nat (mkSwitchConfig "core-1" "10.0.0.1:6030" "admin" "${GNMI_PASSWORD}"
                    "arista")).
  reflexivity.
Defined.

Lemma arista_handler_keeps_other_vectors_witness :
  Arista.target aristaAfterFive = Arista.target aristaCollector /\
  Arista.ptpLockStatus aristaAfterFive = Arista.ptpLockStatus aristaCollector /\
  Arista.igmpGroups aristaAfterFive = Arista.igmpGroups aristaCollector /\
  Arista.tcamUtilization aristaAfterFive = Arista.tcamUtilization aristaCollector /\
  cv_name (Arista.hwQueueDrops aristaAfterFive)
  = cv_name (Arista.hwQueueDrops aristaCollector) /\
  cv_labelNames (Arista.hwQueueDrops aristaAfterFive)
  = cv_labelNames (Arista.hwQueueDrops aristaCollector) /\
  exists more, [Arista.mkDropWarning "sw1" "Ethernet1" "3" 5] = ([] ++ more)%list.
Proof.
  apply (arista_handler_keeps_other_vectors (aristaCollector, [])
           (aristaAfterFive, [Arista.mkDropWarning "sw1" "Ethernet1" "3" 5])
           (notify [Arista.dropsUpdate "Ethernet1" "3" 5])).
  vm_compute. reflexivity.
Defined.

Lemma declared_drop_path_is_not_taken_witness :
  Arista.recognized declaredDropsPath = false /\
  Arista.handleOneUpdate (aristaCollector, [])
    (mkUpdate (Some declaredDropsPath) (Some (UintVal 5)))
  = Ok (aristaCollector, []).
Proof.
  apply (proj2 declared_drop_path_is_not_taken). reflexivity.
Defined.

Lemma arista_children_carry_target_witness :
  (forall k v, cv_values (Arista.hwQueueDrops aristaAfterFive) !! k = Some v ->
     exists iface queue,
       labelSet (cv_labelNames (Arista.hwQueueDrops aristaAfterFive)) k
       = [("switch", "sw1"); ("interface", iface); ("queue", queue)]) /\
  Forall (fun w => Arista.w_target w = "sw1" /\ 0 < Arista.w_drops w)
    [Arista.mkDropWarning "sw1" "Ethernet1" "3" 5].
Proof.
  apply (arista_children_carry_target "sw1" "admin" "secret"
           [notify [Arista.dropsUpdate "Ethernet1" "3" 5]]
           (aristaAfterFive, [Arista.mkDropWarning "sw1" "Ethernet1" "3" 5])).
  vm_compute. reflexivity.
Defined.

Lemma subscribeArista_returns_stream_error_witness :
  Arista.SubscribeArista 2 (aristaCollector, []) brokenSession
  = Some (st' ← forRange Arista.handleAristaUpdate (aristaCollector, []) [];
          Ok (st', Some (fmt_Errorf "stream error: "
                           (status_Error Unavailable "transport is closing")))).
Proof.
  apply (proj2 subscribeArista_returns_stream_error (aristaCollector, [])
           brokenSession []); try reflexivity.
  - intros i r Hr. discriminate.
  - simpl. lia.
Defined.

Lemma non_int_pdu_panics_witness :
  Evertz.collectSNMP evertzExporter
    (Evertz.mkWalk
       (Evertz.delivered evertzWalk
        ++ Evertz.mkSnmpPDU ".1.3.6.1.4.1.6827.20.1.1.1.1.2.2.10" (Evertz.SnmpUint 1)
           :: [])
       None)
  = Panic TypeAssertion.
Proof.
  apply (non_int_pdu_panics evertzExporter (Evertz.delivered evertzWalk) []); reflexivity.
Defined.

Lemma last_pdu_wins_witness :
  exists e',
    Evertz.collectSNMP (Evertz.NewEvertzEQXExporter "10.0.0.7" "public")
      (Evertz.mkWalk
         (Evertz.delivered evertzWalk
          ++ [Evertz.mkSnmpPDU ".1.3.6.1.4.1.6827.20.1.1.1.1.2.2.10" (Evertz.SnmpInt 0)])
         None) = Ok (e', None) /\
    gv_values (Evertz.moduleStatus e')
    = {[ ["1"; "5"; "unknown"] := float64_of_int 0 ]}.
Proof.
  apply (last_pdu_wins "10.0.0.7" "public" (Evertz.delivered evertzWalk)); reflexivity.
Defined.

Lemma chassisSlot_bounds_witness :
  Evertz.chassisSlot ["";"1";"3";"6";"1";"4";"1";"6827";"20";"1";"1";"1";"1"]
  = Ok ("1", "5") /\
  Evertz.chassisSlot ["";"1";"3";"6";"1";"4";"1";"6827";"20";"1";"1";"1";"1";"2"]
  = Panic (IndexOutOfRange 14 14).
Proof.
  split.
  - apply (proj1 (chassisSlot_bounds _)). simpl. lia.
  - apply (proj2 (chassisSlot_bounds _)). reflexivity.
Defined.

Lemma flows_recorded_witness :
  exists e',
    Evertz.collectHTTPAPI evertzAfterWalk (Evertz.Decoded twoFlows) = Ok (e', None) /\
    (forall flow, flow ∈ Evertz.IPFlows twoFlows ->
       gv_values (Evertz.ipFlowStatus e')
         !! [Evertz.Chassis twoFlows; Evertz.ID flow; Evertz.Direction flow]
       = Some 1%float \/
       gv_values (Evertz.ipFlowStatus e')
         !! [Evertz.Chassis twoFlows; Evertz.ID flow; Evertz.Direction flow]
       = Some 0%float) /\
    (forall k, is_Some (gv_values (Evertz.ipFlowStatus evertzAfterWalk) !! k) ->
       is_Some (gv_values (Evertz.ipFlowStatus e') !! k)) /\
    (forall k,
       (forall flow, flow ∈ Evertz.IPFlows twoFlows ->
          k <> [Evertz.Chassis twoFlows; Evertz.ID flow; Evertz.Direction flow]) ->
       gv_values (Evertz.ipFlowStatus e') !! k
       = gv_values (Evertz.ipFlowStatus evertzAfterWalk) !! k) /\
    Evertz.moduleStatus e' = Evertz.moduleStatus evertzAfterWalk.
Proof.
  apply (flows_recorded evertzAfterWalk twoFlows). reflexivity.
Defined.

Lemma collect_steps_witness :
  (@None error = None ->
   Evertz.snmpConnect evertzDevice = None /\
   Evertz.walkError (Evertz.snmpWalk evertzDevice) = None /\
   exists status, Evertz.httpStatus evertzDevice = Evertz.Decoded status) /\
  (forall werr, Evertz.snmpConnect evertzDevice = None ->
     Evertz.walkError (Evertz.snmpWalk evertzDevice) = Some werr ->
     @None error = Some werr /\
     Evertz.ipFlowStatus evertzAfterCollect = Evertz.ipFlowStatus evertzExporter) /\
  Evertz.target evertzAfterCollect = Evertz.target evertzExporter /\
  Evertz.community evertzAfterCollect = Evertz.community evertzExporter /\
  Evertz.videoStreamStatus evertzAfterCollect = Evertz.videoStreamStatus evertzExporter /\
  Evertz.ptpStatus evertzAfterCollect = Evertz.ptpStatus evertzExporter /\
  Evertz.redundancyStatus evertzAfterCollect = Evertz.redundancyStatus evertzExporter.
Proof.
  apply (collect_steps evertzExporter evertzAfterCollect evertzDevice None).
  vm_compute. reflexivity.
Defined.

(** A walk that breaks: the error comes back and the statuses delivered
    before it stay written. *)
Example collect_after_broken_walk :
  Evertz.Collect evertzExporter brokenWalkDevice = Ok (evertzAfterWalk, Some io_EOF).
Proof. vm_compute. reflexivity. Qed.
